(** * Executors framework: a thread pool with readiness constraints

    A shallow embedding of [unbounded_blocking_queue.h], [executors.h] and
    [executors.cpp].

    Modelling conventions.
    - A [std::shared_ptr<Task>] is a [Handle]: [None] is [nullptr], [Some id]
      designates the live object [id] of the heap (a non-null shared pointer
      never dangles, so the heap is a total map).
    - [std::chrono::system_clock::time_point] is an integer; every read of
      [system_clock::now()] is an explicit argument.
    - Every member function runs under the object's [mutex_]; the embedding
      takes one member call as one atomic step and does not model the lock
      itself, nor the condition variables' notifications.  (A task that
      holds a handle to itself in its own readiness sets would lock its own
      mutex twice in [CanBeExecuted]; such tasks are outside the
      embedding.)
    - A call that cannot return in a sequential execution (a [wait] whose
      predicate is false) has the outcome [Blocks]; a call the C++ standard
      leaves undefined (dereferencing [nullptr], rethrowing a null
      [exception_ptr], flowing off the end of a value-returning lambda) has
      the outcome [Undefined]. *)

From Stdlib Require Import List ZArith Bool Arith Lia.
Import ListNotations.

Local Open Scope Z_scope.

Set Warnings "-register-all".

(** ** Pointers, time, outcomes *)

Definition shared_ptr (A : Type) : Type := option A.

Definition is_nonnull {A : Type} (p : shared_ptr A) : bool :=
  match p with Some _ => true | None => false end.

Definition is_empty {A : Type} (l : list A) : bool :=
  match l with [] => true | _ :: _ => false end.

Definition TaskId : Type := nat.
Definition Handle : Type := shared_ptr TaskId.
Definition time_point : Type := Z.

Inductive Outcome (E A : Type) : Type :=
| Returns (a : A)
| Throws (e : E)
| Blocks
| Undefined.

Arguments Returns {E A} a.
Arguments Throws {E A} e.
Arguments Blocks {E A}.
Arguments Undefined {E A}.

Definition bind {E A B : Type} (m : Outcome E A) (k : A -> Outcome E B)
  : Outcome E B :=
  match m with
  | Returns a => k a
  | Throws e => Throws e
  | Blocks => Blocks
  | Undefined => Undefined
  end.

Notation "x <- m ;; k" := (bind m (fun x => k))
  (at level 61, m at next level, right associativity).

(** ** unbounded_blocking_queue.h *)

Module UnboundedBlockingQueue.
Section Queue.
Context {A : Type}.

Record t : Type := mk {
  stopped_ : bool;
  buffer_ : list (shared_ptr A)
}.

(** A queue as its default member initialisers leave it. *)
Definition empty : t := {| stopped_ := false; buffer_ := [] |}.

Definition Put (task : shared_ptr A) (q : t) : bool * t :=
  if stopped_ q then (false, q)
  else (true, {| stopped_ := stopped_ q; buffer_ := buffer_ q ++ [task] |}).

(** [Take] waits until [stopped_ || !buffer_.empty()]. *)
Inductive TakeResult : Type :=
| TakeBlocks
| Taken (result : shared_ptr A) (q : t).

Definition Take (q : t) : TakeResult :=
  if stopped_ q || negb (is_empty (buffer_ q)) then
    match buffer_ q with
    | [] => Taken None q   (* stopped_ && buffer_.empty(): nullptr *)
    | front :: rest =>
        Taken front {| stopped_ := stopped_ q; buffer_ := rest |}
    end
  else TakeBlocks.

Definition CloseImpl (clear : bool) (q : t) : t :=
  {| stopped_ := true; buffer_ := if clear then [] else buffer_ q |}.

Definition Close (q : t) : t := CloseImpl false q.

Definition Cancel (q : t) : t := CloseImpl true q.

Definition IsClosed (q : t) : bool := stopped_ q.
End Queue.
Arguments t : clear implicits.
Arguments TakeResult : clear implicits.
End UnboundedBlockingQueue.

(** ** executors.h / executors.cpp: class Task *)

Module Task.

Inductive TaskStatus : Type := kPending | kCompleted | kFailed | kCanceled.

Definition TaskStatus_eqb (a b : TaskStatus) : bool :=
  match a, b with
  | kPending, kPending | kCompleted, kCompleted
  | kFailed, kFailed | kCanceled, kCanceled => true
  | _, _ => false
  end.

(** What [CanBeExecuted] consults, in the order it consults it. *)
Inductive Probe : Type :=
| DependencyIsFinished (dependency : Handle)
| ClockNow
| TriggerIsFinished (trigger : Handle).

Section Task.
Context {Exn : Type}.

(** [std::exception_ptr]: [None] is the null exception pointer. *)
Definition exception_ptr : Type := option Exn.

Record t : Type := mk {
  e_ptr_ : exception_ptr;
  status_ : TaskStatus;
  dependencies_ : list Handle;
  triggers_ : list Handle;
  deadline_ : time_point
}.

(** A task as its default member initialisers leave it when it is
    constructed at time [now]. *)
Definition create (now : time_point) : t :=
  {| e_ptr_ := None; status_ := kPending;
     dependencies_ := []; triggers_ := []; deadline_ := now |}.

Definition AddDependency (dep : Handle) (self : t) : t :=
  {| e_ptr_ := e_ptr_ self; status_ := status_ self;
     dependencies_ := dependencies_ self ++ [dep];
     triggers_ := triggers_ self; deadline_ := deadline_ self |}.

Definition AddTrigger (dep : Handle) (self : t) : t :=
  {| e_ptr_ := e_ptr_ self; status_ := status_ self;
     dependencies_ := dependencies_ self;
     triggers_ := triggers_ self ++ [dep]; deadline_ := deadline_ self |}.

Definition SetTimeTrigger (at_ : time_point) (self : t) : t :=
  {| e_ptr_ := e_ptr_ self; status_ := status_ self;
     dependencies_ := dependencies_ self;
     triggers_ := triggers_ self; deadline_ := at_ |}.

Definition IsCompleted (self : t) : bool :=
  TaskStatus_eqb (status_ self) kCompleted.

Definition IsFailed (self : t) : bool :=
  TaskStatus_eqb (status_ self) kFailed.

Definition IsCanceled (self : t) : bool :=
  TaskStatus_eqb (status_ self) kCanceled.

Definition IsFinished (self : t) : bool :=
  negb (TaskStatus_eqb (status_ self) kPending).

Definition GetError (self : t) : exception_ptr := e_ptr_ self.

Definition set_status (s : TaskStatus) (self : t) : t :=
  {| e_ptr_ := e_ptr_ self; status_ := s;
     dependencies_ := dependencies_ self;
     triggers_ := triggers_ self; deadline_ := deadline_ self |}.

Definition Cancel (self : t) : t :=
  if TaskStatus_eqb (status_ self) kPending then set_status kCanceled self
  else self.

(** [while (status_ == kPending) wait_.wait(lock);] nothing in a
    sequential execution changes the status while the caller waits. *)
Definition Wait (self : t) : Outcome Exn unit :=
  if TaskStatus_eqb (status_ self) kPending then Blocks else Returns tt.

Definition SaveError (e_ptr : exception_ptr) (self : t) : t :=
  {| e_ptr_ := e_ptr; status_ := kFailed;
     dependencies_ := dependencies_ self;
     triggers_ := triggers_ self; deadline_ := deadline_ self |}.

Definition CompleteTask (self : t) : t := set_status kCompleted self.

(** *** CanBeExecuted

    The function reads other tasks through the handles stored in
    [dependencies_] and [triggers_]; [deref] is the heap.  The result
    comes with the list of probes made, in order. *)

Definition Traced (B : Type) : Type := (list Probe * Outcome Exn B)%type.

Definition tret {B : Type} (b : B) : Traced B := ([], Returns b).

Definition tbind {B C : Type} (m : Traced B) (k : B -> Traced C) : Traced C :=
  match m with
  | (tr, Returns b) => let (tr', o) := k b in (tr ++ tr', o)
  | (tr, Throws e) => (tr, Throws e)
  | (tr, Blocks) => (tr, Blocks)
  | (tr, Undefined) => (tr, Undefined)
  end.

Definition probe {B : Type} (p : Probe) (o : Outcome Exn B) : Traced B :=
  ([p], o).

(** [p->IsFinished()]: the arrow dereferences [p]. *)
Definition arrow_IsFinished (deref : TaskId -> t) (p : Handle)
  : Outcome Exn bool :=
  match p with
  | None => Undefined
  | Some id => Returns (IsFinished (deref id))
  end.

(** The two range-for loops; [Some b] is [return b] from inside the loop,
    [None] is the loop running to its end. *)
Fixpoint dependencies_loop (deref : TaskId -> t) (ds : list Handle)
  : Traced (option bool) :=
  match ds with
  | [] => tret None
  | dependency :: rest =>
      if is_nonnull dependency then
        tbind (probe (DependencyIsFinished dependency)
                     (arrow_IsFinished deref dependency))
              (fun finished =>
                 if negb finished then tret (Some false)
                 else dependencies_loop deref rest)
      else dependencies_loop deref rest
  end.

Fixpoint triggers_loop (deref : TaskId -> t) (ts : list Handle)
  : Traced (option bool) :=
  match ts with
  | [] => tret None
  | trigger :: rest =>
      if is_nonnull trigger then
        tbind (probe (TriggerIsFinished trigger)
                     (arrow_IsFinished deref trigger))
              (fun finished =>
                 if finished then tret (Some true)
                 else triggers_loop deref rest)
      else triggers_loop deref rest
  end.

Definition CanBeExecuted_traced (deref : TaskId -> t) (now : time_point)
  (self : t) : Traced bool :=
  tbind (dependencies_loop deref (dependencies_ self)) (fun r =>
  match r with
  | Some b => tret b
  | None =>
      tbind (probe ClockNow (Returns now)) (fun now' =>
      if now' <? deadline_ self then tret false
      else
        tbind (triggers_loop deref (triggers_ self)) (fun r' =>
        match r' with
        | Some b => tret b
        | None => tret (is_empty (triggers_ self))
        end))
  end).

Definition CanBeExecuted (deref : TaskId -> t) (now : time_point) (self : t)
  : Outcome Exn bool :=
  snd (CanBeExecuted_traced deref now self).

Definition CanBeExecuted_probes (deref : TaskId -> t) (now : time_point)
  (self : t) : list Probe :=
  fst (CanBeExecuted_traced deref now self).
End Task.
Arguments t : clear implicits.
Arguments exception_ptr : clear implicits.
Arguments Traced : clear implicits.
End Task.

(** ** executors.h / executors.cpp: class Future<T>

  [T] ranges over the element type of the program and the vectors built
  from it by [WhenAll] and [WhenAllBeforeDeadline]: a [Value] is a scalar,
  a vector of values, or what default-initialisation leaves in [value_]. *)

Module Future.
Section Future.
Context {T Exn : Type}.

Inductive Value : Type :=
| Default
| Scalar (x : T)
| Vector (xs : list Value).

(** [std::function<T()> fn_]: a callback of the user, or one of the
    lambdas [funk] of the combinators, which captures the vector [all] by
    value.  A callback of the user is taken by its outcome: it returns a
    value or throws, and touches neither the heap nor the executor. *)
Inductive Fn : Type :=
| UserFn (result : Value + Exn)
| WhenAllFn (all : list Handle)
| WhenFirstFn (all : list Handle)
| WhenAllBeforeDeadlineFn (all : list Handle).

Record t : Type := mk {
  task : Task.t Exn;   (* the base-class subobject *)
  value_ : Value;
  fn_ : Fn
}.

Definition Heap : Type := TaskId -> t.

Definition upd (heap : Heap) (id : TaskId) (f : t) : Heap :=
  fun j => if Nat.eqb j id then f else heap j.

Definition base (heap : Heap) : TaskId -> Task.t Exn :=
  fun id => task (heap id).

(** The constructor [Future(std::function<T()> fn)], run at time [now]. *)
Definition create (now : time_point) (fn : Fn) : t :=
  {| task := Task.create now; value_ := Default; fn_ := fn |}.

Definition with_task (f : Task.t Exn -> Task.t Exn) (self : t) : t :=
  {| task := f (task self); value_ := value_ self; fn_ := fn_ self |}.

Definition rethrow_exception {B : Type} (p : Task.exception_ptr Exn)
  : Outcome Exn B :=
  match p with
  | Some e => Throws e
  | None => Undefined
  end.

Definition Get (self : t) : Outcome Exn Value :=
  _ <- Task.Wait (task self) ;;
  if Task.IsFailed (task self)
  then rethrow_exception (Task.GetError (task self))
  else Returns (value_ self).

(** [task->...] on an element of the captured vector. *)
Definition arrow (heap : Heap) (p : Handle) : Outcome Exn t :=
  match p with
  | None => Undefined
  | Some id => Returns (heap id)
  end.

Fixpoint WhenAll_loop (heap : Heap) (all : list Handle)
  (resulting_vector : list Value) : Outcome Exn (list Value) :=
  match all with
  | [] => Returns resulting_vector
  | task :: rest =>
      f <- arrow heap task ;;
      v <- Get f ;;
      WhenAll_loop heap rest (resulting_vector ++ [v])
  end.

Fixpoint WhenFirst_loop (heap : Heap) (all : list Handle)
  : Outcome Exn Value :=
  match all with
  | [] => Undefined   (* control flows off the end of the lambda *)
  | task :: rest =>
      f <- arrow heap task ;;
      if Task.IsFinished (Future.task f) then Get f
      else WhenFirst_loop heap rest
  end.

Fixpoint WhenAllBeforeDeadline_loop (heap : Heap) (all : list Handle)
  (finished_tasks_vector : list Value) : Outcome Exn (list Value) :=
  match all with
  | [] => Returns finished_tasks_vector
  | task :: rest =>
      f <- arrow heap task ;;
      if Task.IsFinished (Future.task f) then
        v <- Get f ;;
        WhenAllBeforeDeadline_loop heap rest (finished_tasks_vector ++ [v])
      else WhenAllBeforeDeadline_loop heap rest finished_tasks_vector
  end.

(** Calling [fn_()]. *)
Definition call (heap : Heap) (fn : Fn) : Outcome Exn Value :=
  match fn with
  | UserFn (inl v) => Returns v
  | UserFn (inr e) => Throws e
  | WhenAllFn all =>
      vs <- WhenAll_loop heap all [] ;; Returns (Vector vs)
  | WhenFirstFn all => WhenFirst_loop heap all
  | WhenAllBeforeDeadlineFn all =>
      vs <- WhenAllBeforeDeadline_loop heap all [] ;; Returns (Vector vs)
  end.

(** Modelled from the spec: [Future<T>::Run] is declared in executors.h
    and its definition is not among the sources.  The specification says
    that Run "wraps a user-supplied thunk producing a T, stores the
    result", that is [value_ = fn_();]. *)
Definition Run (heap : Heap) (self : t) : Outcome Exn t :=
  v <- call heap (fn_ self) ;;
  Returns {| task := task self; value_ := v; fn_ := fn_ self |}.
End Future.
Arguments t : clear implicits.
Arguments Value : clear implicits.
Arguments Fn : clear implicits.
Arguments Heap : clear implicits.
End Future.

(** ** executors.h / executors.cpp: class Executor

  The program state is the heap of futures, the executor's [task_queue_],
  the next address [std::make_shared] hands out, and a ghost log of the
  tasks whose [Run] has been entered (most recent first).  The worker
  threads themselves are not data: [RunTask_iteration] is one pass of the
  loop of [Executor::RunTask] by any worker, taken as atomic. *)

Module Executor.
Section Executor.
Context {T Exn : Type}.

Record State : Type := mk {
  heap : Future.Heap T Exn;
  fresh : TaskId;
  task_queue_ : UnboundedBlockingQueue.t TaskId;
  runs : list TaskId
}.

Definition set_heap (h : Future.Heap T Exn) (s : State) : State :=
  {| heap := h; fresh := fresh s;
     task_queue_ := task_queue_ s; runs := runs s |}.

Definition set_queue (q : UnboundedBlockingQueue.t TaskId) (s : State)
  : State :=
  {| heap := heap s; fresh := fresh s; task_queue_ := q; runs := runs s |}.

Definition enter_Run (task : TaskId) (s : State) : State :=
  {| heap := heap s; fresh := fresh s;
     task_queue_ := task_queue_ s; runs := task :: runs s |}.

(** [task->m()] for a member [m] of the base class that updates it. *)
Definition update (task : TaskId) (m : Task.t Exn -> Task.t Exn) (s : State)
  : State :=
  set_heap (Future.upd (heap s) task (Future.with_task m (heap s task))) s.

Definition the_task (s : State) (task : TaskId) : Task.t Exn :=
  Future.task (heap s task).

(** The state a freshly constructed executor starts from when the heap
    is [h] and the first free address is [n]. *)
Definition init (h : Future.Heap T Exn) (n : TaskId) : State :=
  {| heap := h; fresh := n;
     task_queue_ := UnboundedBlockingQueue.empty; runs := [] |}.

(** [Submit] dereferences its argument at once: the argument is a
    non-null handle, given here by the task it designates.  This is the
    call when no other thread acts between its own calls. *)
Definition Submit (task : TaskId) (s : State) : State :=
  if UnboundedBlockingQueue.IsClosed (task_queue_ s) then
    update task Task.Cancel s
  else if negb (Task.IsCanceled (the_task s task)) then
    set_queue (snd (UnboundedBlockingQueue.Put (Some task) (task_queue_ s))) s
  else s.


Definition StartShutdown (s : State) : State :=
  set_queue (UnboundedBlockingQueue.Close (task_queue_ s)) s.

Inductive Step : Type :=
| Continue (s : State)   (* the loop goes on to its next pass *)
| Exit (s : State)       (* [Take] gave [nullptr]: the worker returns *)
| Idle (s : State)       (* the worker is blocked in [Take] *)
| Stuck (s : State)      (* [Run] was entered and is blocked in a [Wait] *)
| Crash (s : State).     (* undefined behaviour is reached in [s] *)

(** One pass of [while (auto task = task_queue_.Take()) { ... }], in two
    halves.  [RunTask_select] is the pass up to the [try] block: inside the
    body [task] is not null, so the test [!task] is false and the first
    condition is [!task->CanBeExecuted()]; the value of [Put] is dropped.
    [RunTask_try] is the [try] block: [task->Run()] dispatches to
    [Future<T>::Run], the only override in the repository.  Nothing is held
    between the two halves, so calls of other threads may come in between. *)
Inductive Selection : Type :=
| Selected (task : TaskId) (s : State)   (* both tests passed *)
| NotSelected (r : Step).

Definition RunTask_select (now : time_point) (s : State) : Selection :=
  match UnboundedBlockingQueue.Take (task_queue_ s) with
  | UnboundedBlockingQueue.TakeBlocks => NotSelected (Idle s)
  | UnboundedBlockingQueue.Taken None q => NotSelected (Exit (set_queue q s))
  | UnboundedBlockingQueue.Taken (Some task) q =>
      let s := set_queue q s in
      match Task.CanBeExecuted (Future.base (heap s)) now (the_task s task) with
      | Returns false =>
          (* task_queue_.Put(task); continue; *)
          NotSelected
            (Continue
               (set_queue (snd (UnboundedBlockingQueue.Put (Some task) q)) s))
      | Returns true =>
          if Task.IsCanceled (the_task s task) then NotSelected (Continue s)
          else Selected task s
      | Throws _ | Blocks | Undefined => NotSelected (Crash s)
      end
  end.

Definition RunTask_try (task : TaskId) (s : State) : Step :=
  let s := enter_Run task s in
  match Future.Run (heap s) (heap s task) with
  | Returns f =>
      Continue
        (set_heap
           (Future.upd (heap s) task (Future.with_task Task.CompleteTask f))
           s)
  | Throws e => Continue (update task (Task.SaveError (Some e)) s)
  | Blocks => Stuck s
  | Undefined => Crash s
  end.

Definition RunTask_iteration (now : time_point) (s : State) : Step :=
  match RunTask_select now s with
  | Selected task s => RunTask_try task s
  | NotSelected r => r
  end.

(** The state a step leaves behind; for [Crash] it is the state in which
    the undefined call is made. *)
Definition state_of (r : Step) : State :=
  match r with
  | Continue s | Exit s | Idle s | Stuck s | Crash s => s
  end.

(** Ghost measures: how many handles of the channel designate [task], and
    how many times [Run] has been entered on [task]. *)
Definition designates (task : TaskId) (h : Handle) : bool :=
  match h with
  | Some j => Nat.eqb j task
  | None => false
  end.

Definition handles_in_channel (task : TaskId) (s : State) : nat :=
  length (filter (designates task)
                 (UnboundedBlockingQueue.buffer_ (task_queue_ s))).

Definition times_run (task : TaskId) (s : State) : nat :=
  length (filter (fun j => Nat.eqb j task) (runs s)).

(** The loop of [RunTask], one pass per reading of the clock. *)
Fixpoint RunTask (clock : list time_point) (s : State) : Step :=
  match clock with
  | [] => Continue s
  | now :: later =>
      match RunTask_iteration now s with
      | Continue s' => RunTask later s'
      | stop => stop
      end
  end.

(** [std::make_shared<Future<T>>(fn)] at time [now]. *)
Definition make_shared (now : time_point) (fn : Future.Fn T Exn) (s : State)
  : TaskId * State :=
  (fresh s,
   {| heap := Future.upd (heap s) (fresh s) (Future.create now fn);
      fresh := S (fresh s);
      task_queue_ := task_queue_ s; runs := runs s |}).

Definition Invoke (now : time_point) (fn : Future.Fn T Exn) (s : State)
  : TaskId * State :=
  let (task, s) := make_shared now fn s in
  (task, Submit task s).

Definition Then (now : time_point) (input : Handle) (fn : Future.Fn T Exn)
  (s : State) : TaskId * State :=
  let (task, s) := make_shared now fn s in
  let s := update task (Task.AddDependency input) s in
  (task, Submit task s).

Definition WhenAll (now : time_point) (all : list Handle) (s : State)
  : TaskId * State :=
  Invoke now (Future.WhenAllFn all) s.

Definition WhenFirst (now : time_point) (all : list Handle) (s : State)
  : TaskId * State :=
  let (task, s) := make_shared now (Future.WhenFirstFn all) s in
  let s := fold_left (fun s elem => update task (Task.AddTrigger elem) s)
                     all s in
  (task, Submit task s).

Definition WhenAllBeforeDeadline (now : time_point) (all : list Handle)
  (deadline : time_point) (s : State) : TaskId * State :=
  let (task, s) :=
    make_shared now (Future.WhenAllBeforeDeadlineFn all) s in
  let s := update task (Task.SetTimeTrigger deadline) s in
  (task, Submit task s).
End Executor.
Arguments State : clear implicits.
Arguments Step : clear implicits.
Arguments Selection : clear implicits.
End Executor.

(** * Concrete objects used in the examples below

    The element type is [Z] and exceptions are numbered. *)

Module Examples.

Definition Fut : Type := Future.t Z nat.

Definition blank : Future.Heap Z nat :=
  fun _ => Future.create 0 (Future.UserFn (inl Future.Default)).

(** A future that was cancelled before any worker picked it up. *)
Definition canceled_future : Fut :=
  Future.with_task Task.Cancel
    (Future.create 0 (Future.UserFn (inl (Future.Scalar 42)))).

(** A future whose callback returned 42, and one whose callback threw 7. *)
Definition completed_future : Fut :=
  {| Future.task := Task.CompleteTask (Task.create 0);
     Future.value_ := Future.Scalar 42;
     Future.fn_ := Future.UserFn (inl (Future.Scalar 42)) |}.

Definition failed_future : Fut :=
  Future.with_task (Task.SaveError (Some 7%nat))
    (Future.create 0 (Future.UserFn (inr 7%nat))).

Definition pending_future : Fut :=
  Future.create 0 (Future.UserFn (inl (Future.Scalar 1))).

(** A heap with a Completed, a Pending, a Canceled and a Failed future at
    addresses 0 to 3. *)
Definition mixed : Future.Heap Z nat :=
  Future.upd (Future.upd (Future.upd (Future.upd blank
    0%nat completed_future) 1%nat pending_future) 2%nat canceled_future)
    3%nat failed_future.

(** Three tasks reading [mixed]: one held back by a Pending dependency,
    one by its time trigger, one released by its second live trigger. *)
Definition waits_for_dependency : Task.t nat :=
  {| Task.e_ptr_ := None; Task.status_ := Task.kPending;
     Task.dependencies_ := [Some 0; None; Some 1; Some 2]%nat;
     Task.triggers_ := [Some 0%nat]; Task.deadline_ := 0 |}.

Definition waits_for_time : Task.t nat :=
  {| Task.e_ptr_ := None; Task.status_ := Task.kPending;
     Task.dependencies_ := [Some 0%nat];
     Task.triggers_ := [Some 0%nat]; Task.deadline_ := 10 |}.

Definition released_by_trigger : Task.t nat :=
  {| Task.e_ptr_ := None; Task.status_ := Task.kPending;
     Task.dependencies_ := [Some 0%nat];
     Task.triggers_ := [Some 1; None; Some 2; Some 3]%nat;
     Task.deadline_ := 0 |}.

End Examples.

(** * Scenarios: sequences of calls of the public interface *)

Module Scenarios.
Import Executor.

Definition St : Type := Executor.State Z nat.

Definition start : St := Executor.init Examples.blank 0%nat.

(** After a step that goes on, the state it goes on with. *)
Definition next (r : Executor.Step Z nat) (otherwise : St) : St :=
  match r with
  | Continue s => s
  | _ => otherwise
  end.

(** A future with a time trigger far ahead is submitted, then cancelled by
    its owner. *)
Definition delayed_canceled : TaskId * St :=
  let (task, s) :=
    make_shared 0 (Future.UserFn (inl (Future.Scalar 1))) start in
  let s := update task (Task.SetTimeTrigger 100) s in
  let s := Submit task s in
  (task, update task Task.Cancel s).

(** [Invoke] of a callback that returns 5. *)
Definition constructed_and_invoked : TaskId * St :=
  Invoke 0 (Future.UserFn (inl (Future.Scalar 5))) start.

(** [Invoke], and then [Submit] on the future that [Invoke] returned. *)
Definition submitted_twice : TaskId * St :=
  let (task, s) := Invoke 0 (Future.UserFn (inl (Future.Scalar 5))) start in
  (task, Submit task s).

(** A callback that throws 13, and a [WhenAllBeforeDeadline] over it. *)
Definition deadline_over_failure : TaskId * TaskId * St :=
  let (b, s) := Invoke 0 (Future.UserFn (inr 13%nat)) start in
  let (a, s) := WhenAllBeforeDeadline 0 [Some b] 5 s in
  (b, a, s).

(** A future that may not start before time 100, and a [WhenAll] over it. *)
Definition whenall_over_pending : TaskId * TaskId * St :=
  let (b, s) :=
    make_shared 0 (Future.UserFn (inl (Future.Scalar 1))) start in
  let s := update b (Task.SetTimeTrigger 100) s in
  let s := Submit b s in
  let (a, s) := WhenAll 0 [Some b] s in
  (b, a, s).

(** A throwing future [b] that may not start before time 10; a
    [WhenAllBeforeDeadline] [a] over it with deadline 5; one pass of a worker
    at time 1, which puts [b] back behind [a]; then [a] is submitted a
    second time. *)
Definition aggregate_submitted_twice : TaskId * TaskId * St :=
  let (b, s) := make_shared 0 (Future.UserFn (inr 13%nat)) start in
  let s := update b (Task.SetTimeTrigger 10) s in
  let s := Submit b s in
  let (a, s) := WhenAllBeforeDeadline 0 [Some b] 5 s in
  let s := next (RunTask_iteration 1 s) s in
  (b, a, Submit a s).

(** A future is submitted; a worker takes it and passes both tests; its
    owner then calls [Cancel]; the worker goes on into the [try] block.
    The three components are the states after each of the three events. *)
Definition canceled_after_the_tests : TaskId * (St * St * St) :=
  let (task, s) := Invoke 0 (Future.UserFn (inl (Future.Scalar 5))) start in
  let tested :=
    match RunTask_select 1 s with
    | Selected _ s1 => s1
    | NotSelected _ => s
    end in
  let canceled := update task Task.Cancel tested in
  (task, (tested, canceled, next (RunTask_try task canceled) canceled)).

(** A future constructed after [StartShutdown], and its submission. *)
Definition constructed_late : TaskId * St :=
  make_shared 0 (Future.UserFn (inl (Future.Scalar 1)))
              (StartShutdown start).

Definition late_submit : TaskId * St :=
  let (task, s) := constructed_late in
  (task, Submit task s).

(** A future constructed while the executor is open, not yet submitted. *)
Definition constructed_early : TaskId * St :=
  make_shared 0 (Future.UserFn (inl (Future.Scalar 1))) start.



End Scenarios.

(** * The readiness conditions, in the words of the specification

    "The Task is dependency-ready when every prerequisite IsFinished", "is
    time-ready when current time >= this instant", "is trigger-ready when at
    least one trigger IsFinished, OR the set is empty".  The tasks a set
    holds are what its non-null handles designate. *)

Module Readiness.
Section Readiness.
Context {Exn : Type}.
Variable deref : TaskId -> Task.t Exn.

Definition dependency_ready (self : Task.t Exn) : Prop :=
  forall id, In (Some id) (Task.dependencies_ self) ->
             Task.IsFinished (deref id) = true.

Definition time_ready (now : time_point) (self : Task.t Exn) : Prop :=
  Task.deadline_ self <= now.

Definition trigger_ready (self : Task.t Exn) : Prop :=
  Task.triggers_ self = [] \/
  exists id, In (Some id) (Task.triggers_ self) /\
             Task.IsFinished (deref id) = true.

(** Their decision procedures over the handles as stored. *)
Definition finished_or_null (h : Handle) : bool :=
  match h with
  | None => true
  | Some id => Task.IsFinished (deref id)
  end.

Definition finished_nonnull (h : Handle) : bool :=
  match h with
  | None => false
  | Some id => Task.IsFinished (deref id)
  end.

Definition ready (now : time_point) (self : Task.t Exn) : bool :=
  forallb finished_or_null (Task.dependencies_ self)
  && ((Task.deadline_ self <=? now)
      && (existsb finished_nonnull (Task.triggers_ self)
          || is_empty (Task.triggers_ self))).

(** The shape of a probe. *)
Definition dependency_probe (p : Task.Probe) : Prop :=
  exists id, p = Task.DependencyIsFinished (Some id).

Definition trigger_probe (p : Task.Probe) : Prop :=
  exists id, p = Task.TriggerIsFinished (Some id).
End Readiness.
End Readiness.

(** * Sequences of calls

    Calls of one thread, one after the other, on the queue. *)

Module Sequences.
Section Sequences.
Context {A : Type}.

(** [Put] of each handle of a list in turn, the results dropped. *)
Definition Puts (tasks : list (shared_ptr A))
  (q : UnboundedBlockingQueue.t A) : UnboundedBlockingQueue.t A :=
  fold_left (fun q task => snd (UnboundedBlockingQueue.Put task q)) tasks q.

(** [n] calls of [Take]; the thread stops at the first call that blocks.
    The results come in the order of the calls. *)
Fixpoint Takes (n : nat) (q : UnboundedBlockingQueue.t A)
  : list (shared_ptr A) * UnboundedBlockingQueue.t A :=
  match n with
  | O => ([], q)
  | S n' =>
      match UnboundedBlockingQueue.Take q with
      | UnboundedBlockingQueue.TakeBlocks => ([], q)
      | UnboundedBlockingQueue.Taken result q' =>
          let (results, q'') := Takes n' q' in
          (result :: results, q'')
      end
  end.
End Sequences.
End Sequences.

(** * Predicates on executor states *)

Module Shapes.
Section Shapes.
Context {T Exn : Type}.

(** What a combinator does: it constructs one Pending future at the next
    free address, in a state [s2] that differs from [s] in nothing else,
    and calls [Submit] on it; the state it returns still has every other
    object and the run log as in [s]. *)
Definition constructs (s : Executor.State T Exn)
  (r : TaskId * Executor.State T Exn) : Prop :=
  exists s2,
    r = (Executor.fresh s, Executor.Submit (Executor.fresh s) s2) /\
    Executor.fresh s2 = S (Executor.fresh s) /\
    (forall j, j <> Executor.fresh s ->
               Executor.heap s2 j = Executor.heap s j) /\
    Executor.runs s2 = Executor.runs s /\
    Executor.task_queue_ s2 = Executor.task_queue_ s /\
    Task.status_ (Executor.the_task s2 (Executor.fresh s)) = Task.kPending /\
    Executor.fresh (snd r) = S (Executor.fresh s) /\
    (forall j, j <> Executor.fresh s ->
               Executor.heap (snd r) j = Executor.heap s j) /\
    Executor.runs (snd r) = Executor.runs s.

(** Every Failed future of the heap holds an error. *)
Definition errors_recorded (h : Future.Heap T Exn) : Prop :=
  forall id, Task.IsFailed (Future.task (h id)) = true ->
             Task.GetError (Future.task (h id)) <> None.
End Shapes.
End Shapes.

(** * Properties of the queue *)

Section QueueFacts.
Context {A : Type}.
Import UnboundedBlockingQueue.

(** C9: [Put] returns false iff the queue is closed; when it returns false
    the queue, and so its buffer, is unchanged; when it returns true the
    handle has been appended at the tail of the buffer. *)
Theorem Put_false_iff_closed (task : shared_ptr A) (q : t A) :
  (fst (Put task q) = false <-> IsClosed q = true) /\
  (fst (Put task q) = false -> snd (Put task q) = q) /\
  (fst (Put task q) = true ->
     buffer_ (snd (Put task q)) = buffer_ q ++ [task] /\
     stopped_ (snd (Put task q)) = stopped_ q).
Proof.
  unfold Put, IsClosed.
  destruct (stopped_ q) eqn:Hs; cbn; repeat split; intros;
    try congruence; try discriminate.
Qed.

End QueueFacts.

(** * Properties of the status word *)

Section StatusFacts.
Context {Exn : Type}.
Import Task.

Lemma Cancel_keeps_finished (self : Task.t Exn) :
  IsFinished self = true -> Cancel self = self.
Proof.
  unfold IsFinished, Cancel.
  destruct (TaskStatus_eqb (status_ self) kPending); [discriminate | reflexivity].
Qed.

Lemma Cancel_finishes (self : Task.t Exn) : IsFinished (Cancel self) = true.
Proof.
  unfold IsFinished, Cancel.
  destruct (TaskStatus_eqb (status_ self) kPending) eqn:E; cbn; [reflexivity|].
  now rewrite E.
Qed.

Lemma Cancel_pending (self : Task.t Exn) :
  status_ self = kPending -> status_ (Cancel self) = kCanceled.
Proof. unfold Cancel; intros ->; reflexivity. Qed.

Lemma IsCanceled_Cancel (self : Task.t Exn) :
  IsCanceled self = true -> Cancel self = self.
Proof.
  unfold IsCanceled, Cancel; destruct (status_ self); cbn; congruence.
Qed.

End StatusFacts.

(** C2: the code breaks the monotonicity of the status word.  [Cancel]
    leaves a terminal status alone, but [CompleteTask] and [SaveError] write
    the status whatever it is: a task that [Cancel] made Canceled becomes
    Completed by [CompleteTask], and a Completed task becomes Failed by
    [SaveError].  The same happens through the public interface alone when
    a future is run a second time with another outcome, and when [Cancel]
    is called between the tests of the worker and its [try] block. *)
Theorem terminal_status_overwritten :
  let t0 : Task.t nat := Task.Cancel (Task.create 0) in
  Task.status_ t0 = Task.kCanceled /\
  Task.status_ (Task.Cancel t0) = Task.kCanceled /\
  Task.status_ (Task.CompleteTask t0) = Task.kCompleted /\
  Task.status_ (Task.SaveError (Some 7%nat) t0) = Task.kFailed /\
  Task.status_ (Task.SaveError (Some 7%nat) (Task.CompleteTask t0))
    = Task.kFailed /\
  (* through the public interface alone: the aggregate of the scenario is
     Completed after its first run and Failed after its second *)
  let '(b, a, s) := Scenarios.aggregate_submitted_twice in
  (exists s1, Executor.RunTask [6] s = Executor.Continue s1 /\
              Task.status_ (Executor.the_task s1 a) = Task.kCompleted) /\
  (exists s3, Executor.RunTask [6; 11; 12] s = Executor.Continue s3 /\
              Task.status_ (Executor.the_task s3 a) = Task.kFailed) /\
  (* with one call of another thread between the tests of the worker and
     its [try] block: Pending, then Canceled, then Completed *)
  let '(task, (tested, canceled, done)) :=
    Scenarios.canceled_after_the_tests in
  UnboundedBlockingQueue.buffer_ (Executor.task_queue_ tested) = [] /\
  Task.status_ (Executor.the_task tested task) = Task.kPending /\
  Task.status_ (Executor.the_task canceled task) = Task.kCanceled /\
  Executor.RunTask_try task canceled = Executor.Continue done /\
  Task.status_ (Executor.the_task done task) = Task.kCompleted.
Proof.
  cbv zeta. repeat (split; [reflexivity|]).
  vm_compute. split; [eexists; split; reflexivity|].
  split; [eexists; split; reflexivity|].
  repeat split; reflexivity.
Qed.

(** * Properties of [Future<T>::Get] *)

Section GetFacts.
Context {T Exn : Type}.
Import Task Future.

Lemma Get_pending_blocks (f : Future.t T Exn) :
  status_ (task f) = kPending -> Get f = Blocks.
Proof. unfold Get, Wait; intros ->; reflexivity. Qed.

(** C1, as amended: on a future in a terminal state [Get] does not block;
    on Completed it returns the stored [value_]; on Failed it rethrows the
    stored error; on Canceled it returns [value_] as well, the slot that no
    [Run] has written, and signals no error. *)
Theorem Get_terminal (f : Future.t T Exn) :
  IsFinished (task f) = true ->
  (IsCompleted (task f) = true -> Get f = Returns (value_ f)) /\
  (IsFailed (task f) = true ->
     Get f = rethrow_exception (GetError (task f)) /\
     forall e, GetError (task f) = Some e -> Get f = Throws e) /\
  (IsCanceled (task f) = true -> Get f = Returns (value_ f)).
Proof.
  unfold IsFinished, IsCompleted, IsFailed, IsCanceled, Get, Wait, IsFailed.
  destruct (status_ (task f)); cbn; intros H; try discriminate;
    repeat split; intros; try discriminate; try reflexivity.
  match goal with H : GetError _ = Some _ |- _ => rewrite H end; reflexivity.
Qed.

End GetFacts.

(** [Get] on the Canceled, the Completed and the Failed example future. *)
Lemma Get_terminal_witness :
  Task.IsFinished (Future.task Examples.canceled_future) = true /\
  Future.Get Examples.canceled_future = Returns Future.Default /\
  Future.Get Examples.completed_future = Returns (Future.Scalar 42) /\
  Future.Get Examples.failed_future = Throws 7%nat.
Proof.
  split; [reflexivity|].
  split.
  - exact (proj2 (proj2 (Get_terminal Examples.canceled_future eq_refl))
             eq_refl).
  - split.
    + exact (proj1 (Get_terminal Examples.completed_future eq_refl) eq_refl).
    + exact (proj2 (proj1 (proj2 (Get_terminal Examples.failed_future eq_refl))
                      eq_refl) 7%nat eq_refl).
Defined.

(** C1 as stated fails on a Canceled future: [Get] returns the content of
    [value_] and throws nothing. *)
Lemma Get_canceled_returns_a_value :
  Task.IsCanceled (Future.task Examples.canceled_future) = true /\
  Future.Get Examples.canceled_future = Returns Future.Default /\
  forall e : nat, Future.Get Examples.canceled_future <> Throws e.
Proof. repeat split; intros e; discriminate. Qed.

(** * Properties of [Task::CanBeExecuted] *)

Section CanBeExecutedFacts.
Context {Exn : Type}.
Variable deref : TaskId -> Task.t Exn.
Import Task Readiness.

Lemma dependencies_loop_spec (ds : list Handle) :
  exists tr,
    dependencies_loop deref ds
    = (tr, Returns (if forallb (finished_or_null deref) ds
                    then None else Some false)) /\
    Forall dependency_probe tr.
Proof.
  induction ds as [|[id|] rest (tr & E & F)]; cbn.
  - exists []; split; [reflexivity | constructor].
  - destruct (IsFinished (deref id)) eqn:Hfin; cbn.
    + rewrite E. exists (DependencyIsFinished (Some id) :: tr).
      split; [reflexivity|]. constructor; [now exists id | exact F].
    + exists [DependencyIsFinished (Some id)].
      split; [reflexivity|]. constructor; [now exists id | constructor].
  - exists tr; split; assumption.
Qed.

Lemma triggers_loop_spec (ts : list Handle) :
  exists tr,
    triggers_loop deref ts
    = (tr, Returns (if existsb (finished_nonnull deref) ts
                    then Some true else None)) /\
    Forall trigger_probe tr.
Proof.
  induction ts as [|[id|] rest (tr & E & F)]; cbn.
  - exists []; split; [reflexivity | constructor].
  - destruct (IsFinished (deref id)) eqn:Hfin; cbn.
    + exists [TriggerIsFinished (Some id)].
      split; [reflexivity|]. constructor; [now exists id | constructor].
    + rewrite E. exists (TriggerIsFinished (Some id) :: tr).
      split; [reflexivity|]. constructor; [now exists id | exact F].
  - exists tr; split; assumption.
Qed.

(** The traced run in closed form: the dependency probes, then one reading
    of the clock if every dependency passed, then the trigger probes if the
    time has come. *)
Lemma CanBeExecuted_traced_spec (now : time_point) (self : Task.t Exn) :
  exists trd trt,
    CanBeExecuted_traced deref now self
    = (trd ++
       (if forallb (finished_or_null deref) (dependencies_ self)
        then ClockNow :: (if deadline_ self <=? now then trt else [])
        else []),
       Returns (ready deref now self)) /\
    Forall dependency_probe trd /\ Forall trigger_probe trt.
Proof.
  unfold CanBeExecuted_traced, ready.
  destruct (dependencies_loop_spec (dependencies_ self)) as (trd & Ed & Fd).
  destruct (triggers_loop_spec (triggers_ self)) as (trt & Et & Ft).
  exists trd, trt. split; [|split; assumption].
  rewrite Ed. unfold tbind at 1.
  destruct (forallb (finished_or_null deref) (dependencies_ self)); cbn.
  - destruct (Z.ltb_spec now (deadline_ self)) as [Hlt|Hge].
    + replace (deadline_ self <=? now) with false
        by (symmetry; apply Z.leb_gt; lia).
      cbn. reflexivity.
    + replace (deadline_ self <=? now) with true
        by (symmetry; apply Z.leb_le; lia).
      rewrite Et. cbn.
      destruct (existsb (finished_nonnull deref) (triggers_ self)); cbn;
        rewrite ?app_nil_r; reflexivity.
  - rewrite app_nil_r. reflexivity.
Qed.

Lemma CanBeExecuted_ready (now : time_point) (self : Task.t Exn) :
  CanBeExecuted deref now self = Returns (ready deref now self).
Proof.
  unfold CanBeExecuted.
  destruct (CanBeExecuted_traced_spec now self) as (trd & trt & E & _).
  now rewrite E.
Qed.

Lemma dependency_ready_iff (self : Task.t Exn) :
  forallb (finished_or_null deref) (dependencies_ self) = true
  <-> dependency_ready deref self.
Proof.
  unfold dependency_ready. rewrite forallb_forall. split.
  - intros H id Hin. exact (H (Some id) Hin).
  - intros H [id|] Hin; cbn; [exact (H id Hin) | reflexivity].
Qed.

Lemma trigger_ready_iff (self : Task.t Exn) :
  existsb (finished_nonnull deref) (triggers_ self)
  || is_empty (triggers_ self) = true
  <-> trigger_ready deref self.
Proof.
  unfold trigger_ready. rewrite orb_true_iff, existsb_exists. split.
  - intros [([id|] & Hin & Hfin) | Hempty].
    + right. now exists id.
    + discriminate.
    + left. destruct (triggers_ self); [reflexivity | discriminate].
  - intros [-> | (id & Hin & Hfin)].
    + now right.
    + left. now exists (Some id).
Qed.

Lemma ready_iff (now : time_point) (self : Task.t Exn) :
  ready deref now self = true
  <-> dependency_ready deref self /\ time_ready now self
      /\ trigger_ready deref self.
Proof.
  unfold ready, time_ready.
  rewrite !andb_true_iff, dependency_ready_iff, trigger_ready_iff, Z.leb_le.
  reflexivity.
Qed.

(** C7: [CanBeExecuted] always returns, and returns true iff the task is
    dependency-ready and time-ready and trigger-ready.  The three conditions
    are evaluated in that order and evaluation stops at the first false one:
    the probes are dependency probes, then at most one reading of the
    clock, then trigger probes; the clock is read only when every
    dependency is finished, and a trigger is consulted only when moreover
    the time has come. *)
Theorem CanBeExecuted_iff_ready (now : time_point) (self : Task.t Exn) :
  (exists b, CanBeExecuted deref now self = Returns b) /\
  (CanBeExecuted deref now self = Returns true
   <-> dependency_ready deref self /\ time_ready now self
       /\ trigger_ready deref self) /\
  (exists ds cs ts,
      CanBeExecuted_probes deref now self = ds ++ cs ++ ts /\
      Forall dependency_probe ds /\
      (cs = [] \/ cs = [ClockNow]) /\
      Forall trigger_probe ts) /\
  (In ClockNow (CanBeExecuted_probes deref now self) ->
   dependency_ready deref self) /\
  (forall h, In (TriggerIsFinished h) (CanBeExecuted_probes deref now self) ->
             dependency_ready deref self /\ time_ready now self).
Proof.
  pose proof (CanBeExecuted_ready now self) as Hr.
  destruct (CanBeExecuted_traced_spec now self) as (trd & trt & E & Fd & Ft).
  unfold CanBeExecuted_probes. rewrite E. cbn [fst].
  assert (Hnoclock : ~ In ClockNow trd).
  { intros Hin. rewrite Forall_forall in Fd.
    destruct (Fd _ Hin) as (id & Hid). discriminate. }
  assert (Hnotrig : forall h, ~ In (TriggerIsFinished h) trd).
  { intros h Hin. rewrite Forall_forall in Fd.
    destruct (Fd _ Hin) as (id & Hid). discriminate. }
  split; [eexists; exact Hr|].
  split.
  { rewrite Hr. rewrite <- ready_iff. split; [now intros [= ->] | now intros ->]. }
  split.
  { destruct (forallb (finished_or_null deref) (dependencies_ self)).
    - destruct (deadline_ self <=? now).
      + exists trd, [ClockNow], trt. repeat split; auto.
      + exists trd, [ClockNow], []. repeat split; auto.
    - exists trd, [], []. repeat split; auto. }
  split.
  { intros Hin. apply dependency_ready_iff.
    destruct (forallb (finished_or_null deref) (dependencies_ self));
      [reflexivity|].
    rewrite app_nil_r in Hin. contradiction. }
  intros h Hin.
  destruct (forallb (finished_or_null deref) (dependencies_ self)) eqn:Hd.
  - split; [now apply dependency_ready_iff|].
    unfold time_ready.
    destruct (deadline_ self <=? now) eqn:Ht; [now apply Z.leb_le|].
    apply in_app_or in Hin. destruct Hin as [Hin | [Hin | []]].
    + now apply Hnotrig in Hin.
    + discriminate.
  - rewrite app_nil_r in Hin. now apply Hnotrig in Hin.
Qed.

End CanBeExecutedFacts.

(** The answers and the probes of [CanBeExecuted] on the example tasks, at
    time 5. *)
Example CanBeExecuted_on_examples :
  Task.CanBeExecuted_traced (Future.base Examples.mixed) 5
    Examples.waits_for_dependency
  = ([Task.DependencyIsFinished (Some 0%nat);
      Task.DependencyIsFinished (Some 1%nat)], Returns false) /\
  Task.CanBeExecuted_traced (Future.base Examples.mixed) 5
    Examples.waits_for_time
  = ([Task.DependencyIsFinished (Some 0%nat); Task.ClockNow],
     Returns false) /\
  Task.CanBeExecuted_traced (Future.base Examples.mixed) 5
    Examples.released_by_trigger
  = ([Task.DependencyIsFinished (Some 0%nat); Task.ClockNow;
      Task.TriggerIsFinished (Some 1%nat);
      Task.TriggerIsFinished (Some 2%nat)], Returns true).
Proof. repeat split. Qed.

(** * Null handles in the readiness sets *)

Section NullHandles.
Context {Exn : Type}.
Variable deref : TaskId -> Task.t Exn.
Import Task Readiness.

Lemma forallb_finished_or_null_skip (pre post : list Handle) :
  forallb (finished_or_null deref) (pre ++ None :: post)
  = forallb (finished_or_null deref) (pre ++ post).
Proof. rewrite !forallb_app. reflexivity. Qed.

Lemma existsb_finished_nonnull_skip (pre post : list Handle) :
  existsb (finished_nonnull deref) (pre ++ None :: post)
  = existsb (finished_nonnull deref) (pre ++ post).
Proof. rewrite !existsb_app. reflexivity. Qed.

Lemma is_empty_middle {A : Type} (pre post : list A) (x : A) :
  is_empty (pre ++ x :: post) = false.
Proof. destruct pre; reflexivity. Qed.

(** C10: [AddDependency] and [AddTrigger] store a null handle like any
    other; a null entry anywhere in the dependency set leaves the answer of
    [CanBeExecuted] as it is without the entry; a task with a null entry in
    its trigger set is executable only if some non-null trigger is
    finished, so the null entry satisfies nothing and still makes the set
    non-empty; [CanBeExecuted] is never undefined and never probes a null
    handle. *)
Theorem null_handles_tolerated (now : time_point) (self : Task.t Exn) :
  dependencies_ (AddDependency None self) = dependencies_ self ++ [None] /\
  triggers_ (AddTrigger None self) = triggers_ self ++ [None] /\
  CanBeExecuted deref now (AddDependency None self)
  = CanBeExecuted deref now self /\
  (forall e st pre post ts d,
      CanBeExecuted deref now (Task.mk e st (pre ++ None :: post) ts d)
      = CanBeExecuted deref now (Task.mk e st (pre ++ post) ts d)) /\
  (forall e st ds pre post d,
      CanBeExecuted deref now (Task.mk e st ds (pre ++ None :: post) d)
      = Returns true ->
      exists id, In (Some id) (pre ++ post) /\
                 IsFinished (deref id) = true) /\
  (forall e st ds n d,
      CanBeExecuted deref now (Task.mk e st ds (repeat None (S n)) d)
      = Returns false) /\
  CanBeExecuted deref now self <> Undefined /\
  ~ In (DependencyIsFinished None) (CanBeExecuted_probes deref now self) /\
  ~ In (TriggerIsFinished None) (CanBeExecuted_probes deref now self).
Proof.
  split; [reflexivity|]. split; [reflexivity|].
  split.
  { rewrite !CanBeExecuted_ready. unfold ready; cbn.
    rewrite forallb_app. cbn. now rewrite andb_true_r. }
  split.
  { intros. rewrite !CanBeExecuted_ready. unfold ready; cbn.
    now rewrite forallb_finished_or_null_skip. }
  split.
  { intros e st ds pre post d. rewrite CanBeExecuted_ready.
    unfold ready; cbn.
    rewrite existsb_finished_nonnull_skip, is_empty_middle, orb_false_r.
    intros [= H]. apply andb_true_iff in H as [_ H].
    apply andb_true_iff in H as [_ H].
    apply existsb_exists in H as ([id|] & Hin & Hfin); [|discriminate].
    now exists id. }
  split.
  { intros e st ds n d. rewrite CanBeExecuted_ready. unfold ready.
    cbn [triggers_ dependencies_ deadline_].
    replace (existsb (finished_nonnull deref) (repeat None (S n))) with false.
    - cbn. now rewrite !andb_false_r.
    - symmetry. induction n as [|n IH]; [reflexivity | exact IH]. }
  split; [rewrite CanBeExecuted_ready; discriminate|].
  unfold CanBeExecuted_probes.
  destruct (CanBeExecuted_traced_spec deref now self)
    as (trd & trt & E & Fd & Ft).
  rewrite E; cbn [fst]. rewrite Forall_forall in Fd, Ft.
  assert (Hd : forall p, In p trd -> p <> DependencyIsFinished None
                                       /\ p <> TriggerIsFinished None).
  { intros p Hin. destruct (Fd p Hin) as (id & ->). split; discriminate. }
  assert (Ht : forall p, In p trt -> p <> DependencyIsFinished None
                                       /\ p <> TriggerIsFinished None).
  { intros p Hin. destruct (Ft p Hin) as (id & ->). split; discriminate. }
  assert (Hall : forall p,
             In p (trd ++
                   (if forallb (finished_or_null deref) (dependencies_ self)
                    then ClockNow ::
                           (if deadline_ self <=? now then trt else [])
                    else [])) ->
             p <> DependencyIsFinished None /\ p <> TriggerIsFinished None).
  { intros p Hin. apply in_app_or in Hin as [Hin | Hin]; [now apply Hd|].
    destruct (forallb (finished_or_null deref) (dependencies_ self));
      [|contradiction].
    destruct Hin as [<- | Hin]; [split; discriminate|].
    destruct (deadline_ self <=? now); [now apply Ht | contradiction]. }
  split; intros Hin; apply Hall in Hin; destruct Hin; congruence.
Qed.

End NullHandles.

(** * Properties of [Executor::Submit] and of the worker loop *)

Section ExecutorFacts.
Context {T Exn : Type}.
Import Executor.

Lemma Take_front (q : UnboundedBlockingQueue.t TaskId) (h : Handle) (rest : list Handle) :
  UnboundedBlockingQueue.buffer_ q = h :: rest ->
  UnboundedBlockingQueue.Take q
  = UnboundedBlockingQueue.Taken h
      {| UnboundedBlockingQueue.stopped_ := UnboundedBlockingQueue.stopped_ q;
         UnboundedBlockingQueue.buffer_ := rest |}.
Proof.
  unfold UnboundedBlockingQueue.Take. intros ->. cbn.
  now rewrite orb_true_r.
Qed.

Lemma upd_same (h : Future.Heap T Exn) (id : TaskId) (f : Future.t T Exn) :
  Future.upd h id f id = f.
Proof. unfold Future.upd. now rewrite Nat.eqb_refl. Qed.

Lemma upd_other (h : Future.Heap T Exn) (id j : TaskId) (f : Future.t T Exn) :
  j <> id -> Future.upd h id f j = h j.
Proof.
  unfold Future.upd. intros Hne.
  now destruct (Nat.eqb_spec j id) as [->|_].
Qed.

(** What one pass does with the handle it takes, case by case. *)
Lemma RunTask_iteration_unready (now : time_point) (s : State T Exn)
      (task : TaskId) (rest : list Handle) :
  UnboundedBlockingQueue.buffer_ (task_queue_ s) = Some task :: rest ->
  Task.CanBeExecuted (Future.base (heap s)) now (the_task s task)
  = Returns false ->
  RunTask_iteration now s
  = Continue
      {| heap := heap s; fresh := fresh s;
         task_queue_ :=
           {| UnboundedBlockingQueue.stopped_ :=
                UnboundedBlockingQueue.stopped_ (task_queue_ s);
              UnboundedBlockingQueue.buffer_ :=
                if UnboundedBlockingQueue.stopped_ (task_queue_ s)
                then rest else rest ++ [Some task] |};
         runs := runs s |}.
Proof.
  intros Hbuf Hcan. unfold RunTask_iteration, RunTask_select.
  rewrite (Take_front _ _ _ Hbuf). cbn zeta.
  unfold the_task, set_queue in *. cbn [heap]. rewrite Hcan.
  unfold UnboundedBlockingQueue.Put. cbn.
  now destruct (UnboundedBlockingQueue.stopped_ (task_queue_ s)).
Qed.

Lemma RunTask_iteration_canceled (now : time_point) (s : State T Exn)
      (task : TaskId) (rest : list Handle) :
  UnboundedBlockingQueue.buffer_ (task_queue_ s) = Some task :: rest ->
  Task.CanBeExecuted (Future.base (heap s)) now (the_task s task)
  = Returns true ->
  Task.IsCanceled (the_task s task) = true ->
  RunTask_iteration now s
  = Continue
      {| heap := heap s; fresh := fresh s;
         task_queue_ :=
           {| UnboundedBlockingQueue.stopped_ :=
                UnboundedBlockingQueue.stopped_ (task_queue_ s);
              UnboundedBlockingQueue.buffer_ := rest |};
         runs := runs s |}.
Proof.
  intros Hbuf Hcan Hc. unfold RunTask_iteration, RunTask_select, RunTask_try.
  rewrite (Take_front _ _ _ Hbuf). cbn zeta.
  unfold the_task, set_queue in *. cbn [heap]. rewrite Hcan, Hc.
  reflexivity.
Qed.

Lemma RunTask_iteration_runs (now : time_point) (s : State T Exn)
      (task : TaskId) (rest : list Handle) :
  UnboundedBlockingQueue.buffer_ (task_queue_ s) = Some task :: rest ->
  Task.CanBeExecuted (Future.base (heap s)) now (the_task s task)
  = Returns true ->
  Task.IsCanceled (the_task s task) = false ->
  let q := {| UnboundedBlockingQueue.stopped_ :=
                UnboundedBlockingQueue.stopped_ (task_queue_ s);
              UnboundedBlockingQueue.buffer_ := rest |} in
  let entered := {| heap := heap s; fresh := fresh s; task_queue_ := q;
                    runs := task :: runs s |} in
  RunTask_iteration now s
  = match Future.call (heap s) (Future.fn_ (heap s task)) with
    | Returns v =>
        Continue
          {| heap :=
               Future.upd (heap s) task
                 {| Future.task := Task.CompleteTask (the_task s task);
                    Future.value_ := v;
                    Future.fn_ := Future.fn_ (heap s task) |};
             fresh := fresh s; task_queue_ := q; runs := task :: runs s |}
    | Throws e =>
        Continue
          {| heap :=
               Future.upd (heap s) task
                 (Future.with_task (Task.SaveError (Some e)) (heap s task));
             fresh := fresh s; task_queue_ := q; runs := task :: runs s |}
    | Blocks => Stuck entered
    | Undefined => Crash entered
    end.
Proof.
  intros Hbuf Hcan Hc. unfold RunTask_iteration, RunTask_select, RunTask_try.
  rewrite (Take_front _ _ _ Hbuf). cbn zeta.
  unfold the_task, set_queue in *. cbn [heap]. rewrite Hcan, Hc.
  unfold Future.Run, enter_Run, update, set_heap. cbn.
  destruct (Future.call (heap s) (Future.fn_ (heap s task))); reflexivity.
Qed.

(** One pass never lets the number of runs of a task plus the number of
    its handles in the channel grow. *)
Lemma RunTask_iteration_measure (now : time_point) (s s' : State T Exn)
      (task : TaskId) :
  state_of (RunTask_iteration now s) = s' ->
  (times_run task s' + handles_in_channel task s'
   <= times_run task s + handles_in_channel task s)%nat.
Proof.
  destruct (UnboundedBlockingQueue.buffer_ (task_queue_ s))
    as [|[j|] rest] eqn:Hbuf.
  - unfold RunTask_iteration, RunTask_select, UnboundedBlockingQueue.Take.
    rewrite Hbuf. cbn.
    rewrite orb_false_r.
    destruct (UnboundedBlockingQueue.stopped_ (task_queue_ s)); cbn;
      intros <-; unfold handles_in_channel, times_run; cbn;
      rewrite ?Hbuf; lia.
  - destruct (Task.CanBeExecuted (Future.base (heap s)) now (the_task s j))
      as [[|]| | |] eqn:Hcan.
    + destruct (Task.IsCanceled (the_task s j)) eqn:Hc.
      * rewrite (RunTask_iteration_canceled _ _ _ _ Hbuf Hcan Hc).
        cbn. intros <-. unfold handles_in_channel, times_run; cbn.
        rewrite Hbuf; cbn. destruct (Nat.eqb j task); cbn; lia.
      * rewrite (RunTask_iteration_runs _ _ _ _ Hbuf Hcan Hc). cbn zeta.
        destruct (Future.call (heap s) (Future.fn_ (heap s j)));
          cbn; intros <-; unfold handles_in_channel, times_run; cbn;
          rewrite Hbuf; cbn; destruct (Nat.eqb j task); cbn; lia.
    + rewrite (RunTask_iteration_unready _ _ _ _ Hbuf Hcan).
      cbn. intros <-. unfold handles_in_channel, times_run; cbn.
      rewrite Hbuf; cbn.
      destruct (UnboundedBlockingQueue.stopped_ (task_queue_ s));
        rewrite ?filter_app, ?length_app; cbn;
        destruct (Nat.eqb j task); cbn; lia.
    + rewrite CanBeExecuted_ready in Hcan; discriminate.
    + rewrite CanBeExecuted_ready in Hcan; discriminate.
    + rewrite CanBeExecuted_ready in Hcan; discriminate.
  - unfold RunTask_iteration, RunTask_select.
    rewrite (Take_front _ _ _ Hbuf). cbn.
    intros <-. unfold handles_in_channel, times_run; cbn.
    rewrite Hbuf; cbn. lia.
Qed.

Lemma RunTask_stops (now : time_point) (later : list time_point)
      (s : State T Exn) :
  (exists s1, RunTask_iteration now s = Continue s1 /\
              RunTask (now :: later) s = RunTask later s1) \/
  ((forall s1, RunTask_iteration now s <> Continue s1) /\
   RunTask (now :: later) s = RunTask_iteration now s).
Proof.
  cbn. destruct (RunTask_iteration now s) as [s1| | | |].
  - left. now exists s1.
  - right. split; [discriminate | reflexivity].
  - right. split; [discriminate | reflexivity].
  - right. split; [discriminate | reflexivity].
  - right. split; [discriminate | reflexivity].
Qed.

(** An invariant of single passes that holds of the state a finite run of
    the loop leaves behind. *)
Lemma RunTask_invariant (P : State T Exn -> State T Exn -> Prop) :
  (forall s, P s s) ->
  (forall s1 s2 s3, P s1 s2 -> P s2 s3 -> P s1 s3) ->
  (forall now s s', state_of (RunTask_iteration now s) = s' -> P s s') ->
  forall clock s s', state_of (RunTask clock s) = s' -> P s s'.
Proof.
  intros Hrefl Htrans Hstep clock.
  induction clock as [|now later IH]; intros s s' H.
  - cbn in H. subst s'. apply Hrefl.
  - destruct (RunTask_stops now later s) as [(s1 & E1 & E) | (_ & E)];
      rewrite E in H.
    + apply (Htrans s s1 s').
      * apply (Hstep now). now rewrite E1.
      * now apply IH.
    + now apply (Hstep now).
Qed.

Lemma RunTask_measure (clock : list time_point) (s s' : State T Exn)
      (task : TaskId) :
  state_of (RunTask clock s) = s' ->
  (times_run task s' + handles_in_channel task s'
   <= times_run task s + handles_in_channel task s)%nat.
Proof.
  revert clock s s'.
  apply (RunTask_invariant
           (fun s s' =>
              (times_run task s' + handles_in_channel task s'
               <= times_run task s + handles_in_channel task s)%nat)).
  - intros s. lia.
  - intros s1 s2 s3 H12 H23. lia.
  - intros now s s'. apply RunTask_iteration_measure.
Qed.

(** C8, as amended: the code has no claim step, and a pass enters [Run]
    for every handle it takes whose task is executable and not Canceled.
    What bounds the number of runs of a task is the number of its handles in
    the channel: along any finite run of the worker loop, the count of runs
    of the task plus the count of its handles still in the channel never
    grows, so a task is run at most as many times as it has handles in the
    channel, and at most once when it has one. *)
Theorem Run_bounded_by_handles (clock : list time_point)
        (s : State T Exn) (task : TaskId) :
  (times_run task (state_of (RunTask clock s))
   + handles_in_channel task (state_of (RunTask clock s))
   <= times_run task s + handles_in_channel task s)%nat /\
  (times_run task s = 0%nat -> handles_in_channel task s = 1%nat ->
   (times_run task (state_of (RunTask clock s)) <= 1)%nat).
Proof.
  pose proof (RunTask_measure clock s _ task eq_refl) as H.
  split; [exact H | intros H0 H1; lia].
Qed.

(** A Canceled task stays Canceled and is not run by a pass. *)
Lemma RunTask_iteration_keeps_canceled (now : time_point)
      (s s' : State T Exn) (task : TaskId) :
  Task.IsCanceled (the_task s task) = true ->
  state_of (RunTask_iteration now s) = s' ->
  Task.IsCanceled (the_task s' task) = true /\
  times_run task s' = times_run task s.
Proof.
  intros Hcanceled.
  destruct (UnboundedBlockingQueue.buffer_ (task_queue_ s))
    as [|[j|] rest] eqn:Hbuf.
  - unfold RunTask_iteration, RunTask_select, UnboundedBlockingQueue.Take.
    rewrite Hbuf. cbn.
    rewrite orb_false_r.
    destruct (UnboundedBlockingQueue.stopped_ (task_queue_ s)); cbn;
      intros <-; split; auto.
  - destruct (Task.CanBeExecuted (Future.base (heap s)) now (the_task s j))
      as [[|]| | |] eqn:Hcan.
    + destruct (Task.IsCanceled (the_task s j)) eqn:Hc.
      * rewrite (RunTask_iteration_canceled _ _ _ _ Hbuf Hcan Hc).
        cbn. intros <-. split; auto.
      * assert (Hne : task <> j) by (intros ->; congruence).
        assert (Hneb : Nat.eqb j task = false)
          by (apply Nat.eqb_neq; congruence).
        rewrite (RunTask_iteration_runs _ _ _ _ Hbuf Hcan Hc). cbn zeta.
        destruct (Future.call (heap s) (Future.fn_ (heap s j)));
          cbn; intros <-; unfold the_task, times_run in *; cbn;
          rewrite ?upd_other by exact Hne; rewrite ?Hneb; split; auto.
    + rewrite (RunTask_iteration_unready _ _ _ _ Hbuf Hcan).
      cbn. intros <-. split; auto.
    + rewrite CanBeExecuted_ready in Hcan; discriminate.
    + rewrite CanBeExecuted_ready in Hcan; discriminate.
    + rewrite CanBeExecuted_ready in Hcan; discriminate.
  - unfold RunTask_iteration, RunTask_select.
    rewrite (Take_front _ _ _ Hbuf). cbn.
    intros <-. split; auto.
Qed.

Lemma canceled_is_never_run (clock : list time_point)
      (s s' : State T Exn) (task : TaskId) :
  Task.IsCanceled (the_task s task) = true ->
  state_of (RunTask clock s) = s' ->
  Task.IsCanceled (the_task s' task) = true /\
  times_run task s' = times_run task s.
Proof.
  intros Hc H. revert Hc. revert clock s s' H.
  apply (RunTask_invariant
           (fun s s' =>
              Task.IsCanceled (the_task s task) = true ->
              Task.IsCanceled (the_task s' task) = true /\
              times_run task s' = times_run task s)).
  - intros s Hc. split; auto.
  - intros s1 s2 s3 H12 H23 Hc.
    destruct (H12 Hc) as [Hc2 E2]. destruct (H23 Hc2) as [Hc3 E3].
    split; [assumption | congruence].
  - intros now s s' H Hc. now apply (RunTask_iteration_keeps_canceled now s).
Qed.

(** [Submit] when no other thread acts between its calls.  On a closed
    channel the queue and the run log are untouched, the task has been
    through [Cancel] (Canceled if it was Pending, as it was otherwise) and
    no other object changes; a task that was Pending is Canceled from then
    on and no run of the worker loop ever enters its [Run].  On an open
    channel a Canceled task leaves the state as it is, and any other task
    is appended at the tail of the buffer, nothing else changing. *)
Lemma Submit_cases (task : TaskId) (s : State T Exn) :
  (UnboundedBlockingQueue.IsClosed (task_queue_ s) = true ->
   task_queue_ (Submit task s) = task_queue_ s /\
   runs (Submit task s) = runs s /\
   the_task (Submit task s) task = Task.Cancel (the_task s task) /\
   (forall j, j <> task -> heap (Submit task s) j = heap s j) /\
   (Task.status_ (the_task s task) = Task.kPending ->
    Task.status_ (the_task (Submit task s) task) = Task.kCanceled /\
    forall clock,
      Task.IsCanceled
        (the_task (state_of (RunTask clock (Submit task s))) task) = true /\
      times_run task (state_of (RunTask clock (Submit task s)))
      = times_run task s)) /\
  (UnboundedBlockingQueue.IsClosed (task_queue_ s) = false ->
   Task.IsCanceled (the_task s task) = true ->
   Submit task s = s) /\
  (UnboundedBlockingQueue.IsClosed (task_queue_ s) = false ->
   Task.IsCanceled (the_task s task) = false ->
   UnboundedBlockingQueue.buffer_ (task_queue_ (Submit task s))
   = UnboundedBlockingQueue.buffer_ (task_queue_ s) ++ [Some task] /\
   UnboundedBlockingQueue.stopped_ (task_queue_ (Submit task s)) = false /\
   heap (Submit task s) = heap s /\
   runs (Submit task s) = runs s).
Proof.
  unfold Submit, UnboundedBlockingQueue.IsClosed.
  destruct (UnboundedBlockingQueue.stopped_ (task_queue_ s)) eqn:Hs.
  - split; [intros _ | split; discriminate].
    assert (Htask : the_task (update task Task.Cancel s) task
                    = Task.Cancel (the_task s task)).
    { unfold the_task, update; cbn. now rewrite upd_same. }
    split; [reflexivity|]. split; [reflexivity|]. split; [exact Htask|].
    split.
    { intros j Hne. unfold update; cbn. now apply upd_other. }
    intros Hpending.
    assert (Hst : Task.status_ (the_task (update task Task.Cancel s) task)
                  = Task.kCanceled).
    { rewrite Htask. now apply Cancel_pending. }
    split; [exact Hst|].
    intros clock.
    apply (canceled_is_never_run clock (update task Task.Cancel s) _ task);
      [|reflexivity].
    unfold Task.IsCanceled. now rewrite Hst.
  - split; [discriminate|]. split.
    + intros _ ->. reflexivity.
    + intros _ ->. cbn. unfold UnboundedBlockingQueue.Put. rewrite Hs. cbn.
      repeat split; reflexivity.
Qed.


(** C5, as amended: a pass first asks [CanBeExecuted].  A task that cannot
    be executed is handed back to [Put] whether or not it is Canceled: it
    goes to the tail of the buffer of an open channel and is dropped by a
    closed one; it is not run.  A task that can be executed and is Canceled
    is discarded: neither run nor put back.  A task that can be executed
    and is not Canceled has its [Run] entered and is not put back. *)
Theorem RunTask_iteration_on_taken (now : time_point) (s : State T Exn)
        (task : TaskId) (rest : list Handle) :
  UnboundedBlockingQueue.buffer_ (task_queue_ s) = Some task :: rest ->
  (Task.CanBeExecuted (Future.base (heap s)) now (the_task s task)
   = Returns false ->
   exists s', RunTask_iteration now s = Continue s' /\
     heap s' = heap s /\ runs s' = runs s /\
     UnboundedBlockingQueue.buffer_ (task_queue_ s')
     = (if UnboundedBlockingQueue.IsClosed (task_queue_ s)
        then rest else rest ++ [Some task])) /\
  (Task.CanBeExecuted (Future.base (heap s)) now (the_task s task)
   = Returns true ->
   Task.IsCanceled (the_task s task) = true ->
   exists s', RunTask_iteration now s = Continue s' /\
     heap s' = heap s /\ runs s' = runs s /\
     UnboundedBlockingQueue.buffer_ (task_queue_ s') = rest) /\
  (Task.CanBeExecuted (Future.base (heap s)) now (the_task s task)
   = Returns true ->
   Task.IsCanceled (the_task s task) = false ->
   runs (state_of (RunTask_iteration now s)) = task :: runs s /\
   UnboundedBlockingQueue.buffer_
     (task_queue_ (state_of (RunTask_iteration now s))) = rest).
Proof.
  intros Hbuf. split; [|split].
  - intros Hcan. eexists. split.
    + apply (RunTask_iteration_unready _ _ _ _ Hbuf Hcan).
    + cbn. repeat split; reflexivity.
  - intros Hcan Hc. eexists. split.
    + apply (RunTask_iteration_canceled _ _ _ _ Hbuf Hcan Hc).
    + cbn. repeat split; reflexivity.
  - intros Hcan Hc.
    rewrite (RunTask_iteration_runs _ _ _ _ Hbuf Hcan Hc). cbn zeta.
    destruct (Future.call (heap s) (Future.fn_ (heap s task)));
      cbn; split; reflexivity.
Qed.

End ExecutorFacts.

(** The pass that takes the cancelled, delayed future of the scenario. *)
Lemma RunTask_iteration_on_taken_witness :
  UnboundedBlockingQueue.buffer_
    (Executor.task_queue_ (snd Scenarios.delayed_canceled)) = [Some 0%nat] /\
  Task.IsCanceled
    (Executor.the_task (snd Scenarios.delayed_canceled) 0%nat) = true /\
  exists s',
    Executor.RunTask_iteration 1 (snd Scenarios.delayed_canceled)
    = Executor.Continue s' /\
    Executor.heap s' = Executor.heap (snd Scenarios.delayed_canceled) /\
    Executor.runs s' = [] /\
    UnboundedBlockingQueue.buffer_ (Executor.task_queue_ s') = [Some 0%nat].
Proof.
  split; [reflexivity|]. split; [reflexivity|].
  exact (proj1 (RunTask_iteration_on_taken
                  1 (snd Scenarios.delayed_canceled) 0%nat [] eq_refl)
               eq_refl).
Defined.

(** C5 as stated fails: a Canceled task whose time trigger lies ahead is
    taken from an open channel and put back at the tail, pass after pass. *)
Lemma canceled_task_is_put_back :
  let '(task, s) := Scenarios.delayed_canceled in
  Task.IsCanceled (Executor.the_task s task) = true /\
  UnboundedBlockingQueue.buffer_ (Executor.task_queue_ s) = [Some task] /\
  exists s',
    Executor.RunTask [1; 2; 3] s = Executor.Continue s' /\
    UnboundedBlockingQueue.buffer_ (Executor.task_queue_ s') = [Some task] /\
    Task.IsCanceled (Executor.the_task s' task) = true.
Proof.
  vm_compute. split; [reflexivity|]. split; [reflexivity|].
  eexists. split; [reflexivity|]. split; reflexivity.
Qed.

(** The bound on the scenario with two handles of one task. *)
Lemma Run_bounded_by_handles_witness :
  (Executor.times_run 0%nat
     (Executor.state_of
        (Executor.RunTask [1; 2]%Z (snd Scenarios.submitted_twice))) <= 2)%nat /\
  (Executor.times_run 0%nat
     (Executor.state_of
        (Executor.RunTask [1; 2]%Z (snd Scenarios.constructed_and_invoked)))
   <= 1)%nat.
Proof.
  split.
  - pose proof (proj1 (Run_bounded_by_handles
                         [1; 2] (snd Scenarios.submitted_twice) 0%nat)) as H.
    change (Executor.times_run 0%nat (snd Scenarios.submitted_twice)
            + Executor.handles_in_channel 0%nat (snd Scenarios.submitted_twice))%nat
      with 2%nat in H.
    lia.
  - exact (proj2 (Run_bounded_by_handles
                    [1; 2] (snd Scenarios.constructed_and_invoked) 0%nat)
                 eq_refl eq_refl).
Defined.

(** C8 as stated fails: [Invoke] followed by [Submit] on the future it
    returned leaves two handles of one task in the channel, and a single
    worker enters [Run] on that task twice. *)
Lemma handle_twice_runs_twice :
  let '(task, s) := Scenarios.submitted_twice in
  Executor.handles_in_channel task s = 2%nat /\
  (exists s1,
     Executor.RunTask [1] s = Executor.Continue s1 /\
     Executor.runs s1 = [task] /\
     Task.IsCompleted (Executor.the_task s1 task) = true) /\
  exists s',
    Executor.RunTask [1; 2] s = Executor.Continue s' /\
    Executor.runs s' = [task; task] /\
    Executor.times_run task s' = 2%nat.
Proof.
  vm_compute. split; [reflexivity|].
  split; eexists; (split; [reflexivity|]); split; reflexivity.
Qed.

(** Nor is the step from the tests to [Run] atomic with respect to
    [Cancel]: a task cancelled after the worker tested [IsCanceled] is
    Canceled when its [Run] is entered. *)
Example Run_entered_on_canceled_task :
  let '(task, (tested, canceled, done)) :=
    Scenarios.canceled_after_the_tests in
  Task.IsCanceled (Executor.the_task canceled task) = true /\
  Executor.runs canceled = [] /\
  Executor.RunTask_try task canceled = Executor.Continue done /\
  Executor.runs done = [task].
Proof. vm_compute. repeat split; reflexivity. Qed.

(** A future submitted after [StartShutdown] is Canceled, is not in the
    channel, and the worker returns without running it. *)
Example late_submit_is_canceled :
  let '(task, s) := Scenarios.late_submit in
  Task.IsCanceled (Executor.the_task s task) = true /\
  UnboundedBlockingQueue.buffer_ (Executor.task_queue_ s) = [] /\
  exists s', Executor.RunTask [1; 2] s = Executor.Exit s' /\
             Executor.runs s' = [].
Proof.
  vm_compute. split; [reflexivity|]. split; [reflexivity|].
  eexists. split; reflexivity.
Qed.

(** * Properties of the combinators *)

Section CombinatorFacts.
Context {T Exn : Type}.
Import Executor.

Lemma bind_rethrow {B C : Type} (p : Task.exception_ptr Exn)
      (k : B -> Outcome Exn C) :
  bind (Future.rethrow_exception p) k = Future.rethrow_exception p.
Proof. destruct p; reflexivity. Qed.

(** The loop of the lambda of [WhenAll] returns only when every element is
    a live future that is finished, with the elements' values in order. *)
Lemma WhenAll_loop_returns (h : Future.Heap T Exn) (all : list Handle) :
  forall acc vs,
    Future.WhenAll_loop h all acc = Returns vs ->
    exists ids,
      all = map Some ids /\
      Forall (fun id => Task.IsFinished (Future.task (h id)) = true) ids /\
      vs = acc ++ map (fun id => Future.value_ (h id)) ids.
Proof.
  induction all as [|[id|] rest IH]; intros acc vs; cbn.
  - intros [= <-]. exists []. cbn. now rewrite app_nil_r.
  - unfold Future.Get, Task.Wait, Task.IsFailed, Future.rethrow_exception,
      Task.GetError.
    destruct (Task.status_ (Future.task (h id))) eqn:Hst; cbn;
      try discriminate.
    + intros H. apply IH in H as (ids & -> & Hall & ->).
      exists (id :: ids). cbn. split; [reflexivity|]. split.
      * constructor; [|exact Hall]. unfold Task.IsFinished. now rewrite Hst.
      * now rewrite <- app_assoc.
    + destruct (Task.e_ptr_ (Future.task (h id))); discriminate.
    + intros H. apply IH in H as (ids & -> & Hall & ->).
      exists (id :: ids). cbn. split; [reflexivity|]. split.
      * constructor; [|exact Hall]. unfold Task.IsFinished. now rewrite Hst.
      * now rewrite <- app_assoc.
  - discriminate.
Qed.

(** The lambda blocks in [Get] at the first element that is still Pending. *)
Lemma WhenAll_loop_blocks (h : Future.Heap T Exn) (id : TaskId)
      (rest : list Handle) (acc : list (Future.Value T)) :
  Task.status_ (Future.task (h id)) = Task.kPending ->
  Future.WhenAll_loop h (Some id :: rest) acc = Blocks.
Proof.
  intros Hst. cbn. unfold Future.Get, Task.Wait. now rewrite Hst.
Qed.

Lemma Invoke_result (now : time_point) (fn : Future.Fn T Exn)
      (s : State T Exn) :
  fst (Invoke now fn s) = fresh s /\
  heap (snd (Invoke now fn s)) (fresh s)
  = (if UnboundedBlockingQueue.IsClosed (task_queue_ s)
     then Future.with_task Task.Cancel (Future.create now fn)
     else Future.create now fn) /\
  UnboundedBlockingQueue.buffer_ (task_queue_ (snd (Invoke now fn s)))
  = (if UnboundedBlockingQueue.IsClosed (task_queue_ s)
     then UnboundedBlockingQueue.buffer_ (task_queue_ s)
     else UnboundedBlockingQueue.buffer_ (task_queue_ s) ++ [Some (fresh s)]).
Proof.
  unfold Invoke, make_shared, Submit, UnboundedBlockingQueue.IsClosed,
    UnboundedBlockingQueue.Put, update, the_task, set_heap, set_queue.
  cbn.
  destruct (UnboundedBlockingQueue.stopped_ (task_queue_ s)) eqn:Hs; cbn.
  - rewrite !upd_same. repeat split; reflexivity.
  - rewrite !upd_same. cbn. rewrite ?upd_same.
    repeat split; reflexivity.
Qed.

(** C4, as amended: [WhenAll] hands its lambda to [Invoke] and wires no
    readiness constraint: the future it returns has an empty dependency set
    and an empty trigger set, so from its construction on it can be
    executed whatever the state of the elements.  It is inside the lambda
    that the elements are waited for: [Get] blocks at the first element
    that is still Pending, and the lambda returns only when every element
    is a finished future, with their values in the order of the vector. *)
Theorem WhenAll_wires_no_dependency (now : time_point) (all : list Handle)
        (s : State T Exn) :
  let task := fst (WhenAll now all s) in
  let s' := snd (WhenAll now all s) in
  Task.dependencies_ (the_task s' task) = [] /\
  Task.triggers_ (the_task s' task) = [] /\
  Future.fn_ (heap s' task) = Future.WhenAllFn all /\
  (forall (h : TaskId -> Task.t Exn) now', now <= now' ->
     Task.CanBeExecuted h now' (the_task s' task) = Returns true) /\
  (forall (h : Future.Heap T Exn) id rest,
     all = Some id :: rest ->
     Task.status_ (Future.task (h id)) = Task.kPending ->
     Future.call h (Future.WhenAllFn all) = Blocks) /\
  (forall (h : Future.Heap T Exn) v,
     Future.call h (Future.WhenAllFn all) = Returns v ->
     exists ids,
       all = map Some ids /\
       Forall (fun id => Task.IsFinished (Future.task (h id)) = true) ids /\
       v = Future.Vector (map (fun id => Future.value_ (h id)) ids)).
Proof.
  cbv zeta. unfold WhenAll.
  destruct (Invoke_result now (Future.WhenAllFn all) s) as (Eid & Eheap & _).
  rewrite Eid. unfold the_task. rewrite Eheap.
  assert (Hfields :
            let f : Future.t T Exn :=
                     (if UnboundedBlockingQueue.IsClosed (task_queue_ s)
                      then Future.with_task Task.Cancel
                             (Future.create now (Future.WhenAllFn all))
                      else Future.create now (Future.WhenAllFn all)) in
            Task.dependencies_ (Future.task f) = [] /\
            Task.triggers_ (Future.task f) = [] /\
            Task.deadline_ (Future.task f) = now /\
            Future.fn_ f = Future.WhenAllFn all).
  { destruct (UnboundedBlockingQueue.IsClosed (task_queue_ s)); cbn;
      repeat split; reflexivity. }
  cbv zeta in Hfields. destruct Hfields as (Hd & Ht & Hdl & Hfn).
  split; [exact Hd|]. split; [exact Ht|]. split; [exact Hfn|].
  split.
  { intros h now' Hle. rewrite CanBeExecuted_ready.
    unfold Readiness.ready. rewrite Hd, Ht, Hdl. cbn.
    replace (now <=? now') with true by (symmetry; now apply Z.leb_le).
    reflexivity. }
  split.
  { intros h id rest -> Hst. cbn [Future.call].
    now rewrite (WhenAll_loop_blocks h id rest [] Hst). }
  intros h v H. cbn [Future.call] in H.
  destruct (Future.WhenAll_loop h all []) as [vs| | |] eqn:E;
    cbn in H; try discriminate.
  injection H as <-.
  apply WhenAll_loop_returns in E as (ids & Hall & Hfin & ->).
  now exists ids.
Qed.

(** The loop of the lambda of [WhenAllBeforeDeadline] over live futures, in
    closed form. *)
Lemma WhenAllBeforeDeadline_loop_spec (h : Future.Heap T Exn)
      (ids : list TaskId) :
  forall acc,
    Future.WhenAllBeforeDeadline_loop h (map Some ids) acc
    = match find (fun id => Task.IsFailed (Future.task (h id))) ids with
      | Some id =>
          Future.rethrow_exception (Task.GetError (Future.task (h id)))
      | None =>
          Returns
            (acc ++
             map (fun id => Future.value_ (h id))
                 (filter (fun id => Task.IsFinished (Future.task (h id)))
                         ids))
      end.
Proof.
  induction ids as [|id rest IH]; intros acc; cbn.
  - now rewrite app_nil_r.
  - unfold Future.Get, Task.Wait, Task.IsFailed, Task.IsFinished,
      Task.GetError in *.
    destruct (Task.status_ (Future.task (h id))) eqn:Hst; cbn.
    + apply IH.
    + rewrite IH. destruct (find _ rest); [reflexivity|].
      now rewrite <- app_assoc.
    + apply bind_rethrow.
    + rewrite IH. destruct (find _ rest); [reflexivity|].
      now rewrite <- app_assoc.
Qed.

(** C3, as amended: [WhenAllBeforeDeadline] wires the deadline as the time
    trigger and nothing else.  Its lambda scans the vector in order, skips
    the elements that are not finished, and calls [Get] on each finished
    one: the values of the Completed and Canceled elements are appended,
    and the first Failed element makes [Get] rethrow its error out of the
    lambda.  A worker that runs the aggregate then stores that error in it
    and marks it Failed; with no Failed element the aggregate becomes
    Completed with the vector of values. *)
Theorem WhenAllBeforeDeadline_rethrows_first_failure
        (h : Future.Heap T Exn) (all : list TaskId) :
  (forall now deadline (s : State T Exn),
     let task := fst (WhenAllBeforeDeadline now (map Some all) deadline s) in
     let s' := snd (WhenAllBeforeDeadline now (map Some all) deadline s) in
     Task.deadline_ (the_task s' task) = deadline /\
     Task.dependencies_ (the_task s' task) = [] /\
     Task.triggers_ (the_task s' task) = [] /\
     Future.fn_ (heap s' task)
     = Future.WhenAllBeforeDeadlineFn (map Some all)) /\
  Future.call h (Future.WhenAllBeforeDeadlineFn (map Some all))
  = match find (fun id => Task.IsFailed (Future.task (h id))) all with
    | Some id => Future.rethrow_exception (Task.GetError (Future.task (h id)))
    | None =>
        Returns
          (Future.Vector
             (map (fun id => Future.value_ (h id))
                  (filter (fun id => Task.IsFinished (Future.task (h id)))
                          all)))
    end /\
  (forall now (s : State T Exn) task rest,
     heap s = h ->
     UnboundedBlockingQueue.buffer_ (task_queue_ s) = Some task :: rest ->
     Future.fn_ (h task) = Future.WhenAllBeforeDeadlineFn (map Some all) ->
     Task.CanBeExecuted (Future.base h) now (the_task s task)
     = Returns true ->
     Task.IsCanceled (the_task s task) = false ->
     forall id e,
       find (fun id => Task.IsFailed (Future.task (h id))) all = Some id ->
       Task.GetError (Future.task (h id)) = Some e ->
       exists s',
         RunTask_iteration now s = Continue s' /\
         Task.IsFailed (the_task s' task) = true /\
         Task.GetError (the_task s' task) = Some e).
Proof.
  assert (Hcall :
            Future.call h (Future.WhenAllBeforeDeadlineFn (map Some all))
            = match find (fun id => Task.IsFailed (Future.task (h id))) all
              with
              | Some id =>
                  Future.rethrow_exception
                    (Task.GetError (Future.task (h id)))
              | None =>
                  Returns
                    (Future.Vector
                       (map (fun id => Future.value_ (h id))
                            (filter
                               (fun id =>
                                  Task.IsFinished (Future.task (h id)))
                               all)))
              end).
  { cbn [Future.call]. rewrite WhenAllBeforeDeadline_loop_spec.
    destruct (find _ all); [apply bind_rethrow | reflexivity]. }
  split; [|split; [exact Hcall|]].
  - intros now deadline s. cbv zeta.
    unfold WhenAllBeforeDeadline, make_shared, Submit, update, the_task,
      set_heap, set_queue, UnboundedBlockingQueue.IsClosed,
      UnboundedBlockingQueue.Put.
    cbn. rewrite !upd_same. cbn.
    destruct (UnboundedBlockingQueue.stopped_ (task_queue_ s)); cbn;
      rewrite ?upd_same; cbn.
    + repeat split; reflexivity.
    + repeat split; reflexivity.
  - intros now s task rest <- Hbuf Hfn Hcan Hc id e Hfind He.
    rewrite (RunTask_iteration_runs _ _ _ _ Hbuf Hcan Hc). cbn zeta.
    rewrite Hfn, Hcall, Hfind, He. cbn.
    eexists. split; [reflexivity|].
    unfold the_task; cbn. rewrite upd_same. cbn. split; reflexivity.
Qed.

End CombinatorFacts.

(** The lambda of [WhenAllBeforeDeadline] on concrete heaps: the Pending
    element is left out, the Canceled one contributes its untouched value
    slot, and a Failed one makes the lambda throw. *)
Example WhenAllBeforeDeadline_on_mixed :
  Future.call Examples.mixed
    (Future.WhenAllBeforeDeadlineFn [Some 0; Some 1; Some 2]%nat)
  = Returns (Future.Vector [Future.Scalar 42; Future.Default]) /\
  Future.call Examples.mixed
    (Future.WhenAllBeforeDeadlineFn [Some 0; Some 1; Some 3; Some 2]%nat)
  = Throws 7%nat.
Proof. split; reflexivity. Qed.

(** C3 as stated fails: the only element throws 13 when it runs; the
    aggregate, run after its deadline, becomes Failed with that error. *)
Lemma element_failure_fails_the_aggregate :
  let '(b, a, s) := Scenarios.deadline_over_failure in
  exists s',
    Executor.RunTask [6; 7] s = Executor.Continue s' /\
    Task.IsFailed (Executor.the_task s' b) = true /\
    Task.IsFailed (Executor.the_task s' a) = true /\
    Task.GetError (Executor.the_task s' a) = Some 13%nat /\
    Future.Get (Executor.heap s' a) = Throws 13%nat /\
    Future.call (Executor.heap s') (Future.fn_ (Executor.heap s' a))
    = Throws 13%nat.
Proof.
  vm_compute. eexists. split; [reflexivity|]. repeat split; reflexivity.
Qed.

(** C4 as stated fails: the future [WhenAll] returns has no dependency at
    all, can be executed while its only element is still Pending, and a
    worker does enter its [Run] then, where it blocks in [Get]. *)
Lemma WhenAll_runs_before_its_elements :
  let '(b, a, s) := Scenarios.whenall_over_pending in
  Task.dependencies_ (Executor.the_task s a) = [] /\
  Task.dependencies_ (Executor.the_task s a) <> [Some b] /\
  Task.IsFinished (Executor.the_task s b) = false /\
  Task.CanBeExecuted (Future.base (Executor.heap s)) 1
    (Executor.the_task s a) = Returns true /\
  exists s',
    Executor.RunTask [1; 2] s = Executor.Stuck s' /\
    Executor.runs s' = [a] /\
    Task.IsFinished (Executor.the_task s' b) = false.
Proof.
  vm_compute. split; [reflexivity|]. split; [discriminate|].
  split; [reflexivity|]. split; [reflexivity|].
  eexists. split; [reflexivity|]. split; reflexivity.
Qed.

(** The uninterrupted [Submit] on a closed channel and on an open one. *)
Lemma Submit_cases_witness :
  let closed := snd Scenarios.constructed_late in
  let open := snd Scenarios.constructed_early in
  (Executor.task_queue_ (Executor.Submit 0%nat closed)
   = Executor.task_queue_ closed /\
   Task.status_ (Executor.the_task (Executor.Submit 0%nat closed) 0%nat)
   = Task.kCanceled /\
   Executor.times_run 0%nat
     (Executor.state_of
        (Executor.RunTask [1; 2] (Executor.Submit 0%nat closed)))
   = Executor.times_run 0%nat closed) /\
  UnboundedBlockingQueue.buffer_
    (Executor.task_queue_ (Executor.Submit 0%nat open)) = [Some 0%nat].
Proof.
  cbv zeta. split.
  - pose proof (proj1 (Submit_cases 0%nat (snd Scenarios.constructed_late))
                      eq_refl) as (Hq & _ & _ & _ & Hpending).
    destruct (Hpending eq_refl) as (Hst & Hnever).
    split; [exact Hq|]. split; [exact Hst|].
    exact (proj2 (Hnever [1; 2])).
  - exact (proj1 (proj2 (proj2 (Submit_cases
                                  0%nat (snd Scenarios.constructed_early)))
                        eq_refl eq_refl)).
Defined.

(** * Further properties of the queue *)

Section QueueSequences.
Context {A : Type}.
Import UnboundedBlockingQueue Sequences.

Lemma Puts_open (tasks : list (shared_ptr A)) (q : t A) :
  stopped_ q = false ->
  Puts tasks q = {| stopped_ := false; buffer_ := buffer_ q ++ tasks |}.
Proof.
  unfold Puts. revert q.
  induction tasks as [|task rest IH]; intros q Hs; cbn.
  - rewrite app_nil_r. destruct q; cbn in *; now subst.
  - unfold Put at 2. rewrite Hs. cbn. rewrite IH by reflexivity. cbn.
    now rewrite <- app_assoc.
Qed.

Lemma Puts_closed (tasks : list (shared_ptr A)) (q : t A) :
  stopped_ q = true -> Puts tasks q = q.
Proof.
  unfold Puts. revert q.
  induction tasks as [|task rest IH]; intros q Hs; cbn.
  - reflexivity.
  - unfold Put at 2. rewrite Hs. cbn. now apply IH.
Qed.

Lemma Takes_buffer (b : list (shared_ptr A)) (stopped : bool) :
  Takes (length b) {| stopped_ := stopped; buffer_ := b |}
  = (b, {| stopped_ := stopped; buffer_ := [] |}).
Proof.
  induction b as [|h rest IH]; cbn.
  - reflexivity.
  - unfold Take. cbn. rewrite orb_true_r. now rewrite IH.
Qed.

Lemma Takes_app (n m : nat) (q : t A) :
  fst (Takes n q) <> [] \/ n = O ->
  length (fst (Takes n q)) = n ->
  Takes (n + m) q
  = (fst (Takes n q) ++ fst (Takes m (snd (Takes n q))),
     snd (Takes m (snd (Takes n q)))).
Proof.
  revert q. induction n as [|n IH]; intros q _ Hlen; cbn.
  - now destruct (Takes m q).
  - cbn in Hlen. destruct (Take q) as [|r q'] eqn:E; cbn in *; [discriminate|].
    destruct (Takes n q') as [rs q''] eqn:E'. cbn in *.
    injection Hlen as Hlen.
    specialize (IH q'). rewrite E' in IH. cbn in IH.
    rewrite IH; [reflexivity | | exact Hlen].
    destruct rs; [right; cbn in Hlen; congruence | left; discriminate].
Qed.

Lemma Takes_closed_empty (k : nat) :
  Takes k {| stopped_ := true; buffer_ := @nil (shared_ptr A) |}
  = (repeat None k, {| stopped_ := true; buffer_ := [] |}).
Proof.
  induction k as [|k IH]; cbn; [reflexivity|].
  unfold Take. cbn. now rewrite IH.
Qed.

Lemma Take_keeps_stopped (q q' : t A) (result : shared_ptr A) :
  Take q = Taken result q' -> stopped_ q' = stopped_ q.
Proof.
  unfold Take.
  destruct (stopped_ q || negb (is_empty (buffer_ q))); [|discriminate].
  destruct (buffer_ q); now intros [= _ <-].
Qed.

(** X1: the queue is first in, first out.  On an open queue, the handles
    put by a sequence of [Put] come out of as many [Take] behind the ones
    that were there, in the order of the calls, null handles included, and
    the queue is left empty and open. *)
Theorem Put_Take_fifo (tasks : list (shared_ptr A)) (q : t A) :
  IsClosed q = false ->
  Takes (length (buffer_ q) + length tasks) (Puts tasks q)
  = (buffer_ q ++ tasks, {| stopped_ := false; buffer_ := [] |}).
Proof.
  unfold IsClosed. intros Hs. rewrite (Puts_open tasks q Hs).
  rewrite <- length_app. apply Takes_buffer.
Qed.

(** What [Take] does, case by case.  It blocks exactly on a queue that
    is open and empty; on a closed and empty queue it returns [nullptr] and
    changes nothing; otherwise it returns the front handle and removes it,
    and it never changes [stopped_]. *)
Lemma Take_cases (q : t A) :
  (Take q = TakeBlocks <-> IsClosed q = false /\ buffer_ q = []) /\
  (IsClosed q = true -> buffer_ q = [] -> Take q = Taken None q) /\
  (forall front rest,
     buffer_ q = front :: rest ->
     Take q = Taken front {| stopped_ := stopped_ q; buffer_ := rest |}) /\
  (forall result q', Take q = Taken result q' -> stopped_ q' = stopped_ q).
Proof.
  unfold Take, IsClosed.
  destruct q as [stopped [|front rest]]; cbn; destruct stopped; cbn.
  - split; [split; [discriminate | intros [? _]; discriminate]|].
    split; [reflexivity|]. split; [discriminate|].
    now intros result q' [= _ <-].
  - split; [split; [now split | reflexivity]|].
    split; [discriminate|]. split; [discriminate|]. discriminate.
  - split; [split; [discriminate | intros [_ ?]; discriminate]|].
    split; [discriminate|]. split; [now intros ? ? [= <- <-]|].
    now intros result q' [= _ <-].
  - split; [split; [discriminate | intros [_ ?]; discriminate]|].
    split; [discriminate|]. split; [now intros ? ? [= <- <-]|].
    now intros result q' [= _ <-].
Qed.

(** X2: [Close] is the draining shutdown.  The handles in the buffer stay
    and come out of [Take] in order; every further [Take] returns [nullptr]
    without blocking; every [Put] after [Close] is refused and leaves the
    queue as it is. *)
Theorem Close_drains (q : t A) (k : nat) (tasks : list (shared_ptr A)) :
  buffer_ (Close q) = buffer_ q /\
  Takes (length (buffer_ q) + k) (Close q)
  = (buffer_ q ++ repeat None k, Cancel q) /\
  Puts tasks (Close q) = Close q.
Proof.
  split; [reflexivity|]. split.
  - assert (Hfirst : Takes (length (buffer_ q)) (Close q)
                     = (buffer_ q, Cancel q))
      by (unfold Close, Cancel, CloseImpl; apply Takes_buffer).
    destruct (buffer_ q) as [|h rest] eqn:Hb.
    + cbn [length Nat.add app].
      unfold Close, Cancel, CloseImpl. rewrite Hb.
      apply Takes_closed_empty.
    + rewrite Takes_app; rewrite Hfirst; cbn [fst snd].
      * unfold Cancel, CloseImpl. now rewrite Takes_closed_empty.
      * left. discriminate.
      * reflexivity.
  - now apply Puts_closed.
Qed.

(** X3: [Cancel] is the immediate shutdown, and a closed queue never
    reopens.  After [Cancel] the buffer is empty, every [Take] returns
    [nullptr] and every [Put] is refused; [Close] and [Cancel] are
    idempotent, [Cancel] wins over [Close] in either order; and [Put],
    [Take], [Close] and [Cancel] all keep a closed queue closed. *)
Theorem Cancel_discards (q : t A) (k : nat) (tasks : list (shared_ptr A)) :
  buffer_ (Cancel q) = [] /\
  Takes k (Cancel q) = (repeat None k, Cancel q) /\
  Puts tasks (Cancel q) = Cancel q /\
  Close (Close q) = Close q /\
  Cancel (Cancel q) = Cancel q /\
  Cancel (Close q) = Cancel q /\
  Close (Cancel q) = Cancel q /\
  IsClosed (Close q) = true /\
  IsClosed (Cancel q) = true /\
  (IsClosed q = true ->
   forall task,
     IsClosed (snd (Put task q)) = true /\
     forall result q', Take q = Taken result q' -> IsClosed q' = true).
Proof.
  split; [reflexivity|].
  split; [unfold Cancel, CloseImpl; apply Takes_closed_empty|].
  split; [now apply Puts_closed|].
  repeat (split; [reflexivity|]).
  unfold IsClosed. intros Hs task. split.
  - unfold Put. now rewrite Hs.
  - intros result q' H. now rewrite (Take_keeps_stopped q q' result H).
Qed.

End QueueSequences.

(** The order of three [Put] on a fresh queue, a null handle among them. *)
Lemma Put_Take_fifo_witness :
  Sequences.Takes 3
    (Sequences.Puts [Some 4%nat; None; Some 2%nat]
                    UnboundedBlockingQueue.empty)
  = ([Some 4%nat; None; Some 2%nat],
     {| UnboundedBlockingQueue.stopped_ := false;
        UnboundedBlockingQueue.buffer_ := [] |}).
Proof.
  exact (Put_Take_fifo [Some 4%nat; None; Some 2%nat]
                       UnboundedBlockingQueue.empty eq_refl).
Defined.

(** * Further properties of [Task] *)

Section TaskFacts.
Context {Exn : Type}.
Variable deref : TaskId -> Task.t Exn.
Import Task.

(** X4: the three status predicates are mutually exclusive and
    [IsFinished] is their disjunction; a task just constructed satisfies
    none of them. *)
Theorem status_predicates_partition (self : Task.t Exn) (now : time_point) :
  IsFinished self = IsCompleted self || IsFailed self || IsCanceled self /\
  IsCompleted self && IsFailed self = false /\
  IsCompleted self && IsCanceled self = false /\
  IsFailed self && IsCanceled self = false /\
  IsFinished (Task.create (Exn := Exn) now) = false.
Proof.
  unfold IsFinished, IsCompleted, IsFailed, IsCanceled.
  destruct (status_ self); cbn; repeat split; reflexivity.
Qed.

(** X5: [Cancel] finishes a task and does nothing else.  It is idempotent,
    leaves a finished task exactly as it is, turns a Pending task into a
    Canceled one, and never touches the error, the dependencies, the
    triggers or the time trigger. *)
Theorem Cancel_effect (self : Task.t Exn) :
  Cancel (Cancel self) = Cancel self /\
  IsFinished (Cancel self) = true /\
  (IsFinished self = true -> Cancel self = self) /\
  IsCanceled (Cancel self) = negb (IsCompleted self || IsFailed self) /\
  GetError (Cancel self) = GetError self /\
  dependencies_ (Cancel self) = dependencies_ self /\
  triggers_ (Cancel self) = triggers_ self /\
  deadline_ (Cancel self) = deadline_ self.
Proof.
  unfold Cancel, IsFinished, IsCanceled, IsCompleted, IsFailed, GetError.
  destruct self as [e st ds ts d]; destruct st; cbn;
    repeat split; intros; try reflexivity; try discriminate.
Qed.

(** X6: [Wait] returns exactly on a finished task and blocks on a Pending
    one; each of the three operations that write the status leaves the
    task in a state in which [Wait] returns. *)
Theorem Wait_returns_iff_finished (self : Task.t Exn)
        (e_ptr : Task.exception_ptr Exn) :
  (Wait self = Returns tt <-> IsFinished self = true) /\
  (Wait self = Blocks <-> status_ self = kPending) /\
  Wait (Cancel self) = Returns tt /\
  Wait (CompleteTask self) = Returns tt /\
  Wait (SaveError e_ptr self) = Returns tt.
Proof.
  unfold Wait, IsFinished, Cancel, CompleteTask, SaveError.
  destruct self as [e st ds ts d]; destruct st; cbn;
    repeat split; intros; try reflexivity; try discriminate.
Qed.

Lemma ready_AddDependency (now : time_point) (dep : Handle)
      (self : Task.t Exn) :
  Readiness.ready deref now (AddDependency dep self)
  = Readiness.ready deref now self && Readiness.finished_or_null deref dep.
Proof.
  unfold Readiness.ready; cbn. rewrite forallb_app; cbn.
  destruct (forallb (Readiness.finished_or_null deref) (dependencies_ self));
    destruct (Readiness.finished_or_null deref dep); cbn;
    rewrite ?andb_true_r, ?andb_false_r; reflexivity.
Qed.

(** X7: a dependency added with [AddDependency] is one more condition and
    nothing else: the task can be executed with the new dependency iff it
    could without it and the new dependency is finished.  The call leaves
    the status, the error, the triggers and the time trigger alone. *)
Theorem AddDependency_conjoins (now : time_point) (d : TaskId)
        (self : Task.t Exn) :
  (CanBeExecuted deref now (AddDependency (Some d) self) = Returns true
   <-> CanBeExecuted deref now self = Returns true
       /\ IsFinished (deref d) = true) /\
  status_ (AddDependency (Some d) self) = status_ self /\
  GetError (AddDependency (Some d) self) = GetError self /\
  triggers_ (AddDependency (Some d) self) = triggers_ self /\
  deadline_ (AddDependency (Some d) self) = deadline_ self.
Proof.
  split; [|repeat split; reflexivity].
  rewrite !CanBeExecuted_ready, ready_AddDependency. cbn.
  split.
  - intros [= H]. apply andb_true_iff in H as [H1 H2].
    now rewrite H1.
  - intros [[= ->] ->]. reflexivity.
Qed.

(** X8: a trigger added with [AddTrigger] is one more alternative, but it
    also makes the trigger set non-empty.  With the new trigger the task
    can be executed iff its dependencies are finished, its time has come,
    and the new trigger or one of the old ones is finished.  So a task
    without triggers that could be executed is held back by an unfinished
    first trigger, and a finished trigger never holds a task back. *)
Theorem AddTrigger_alternative (now : time_point) (x : TaskId)
        (self : Task.t Exn) :
  (CanBeExecuted deref now (AddTrigger (Some x) self) = Returns true
   <-> (forall id, In (Some id) (dependencies_ self) ->
                   IsFinished (deref id) = true)
       /\ deadline_ self <= now
       /\ (IsFinished (deref x) = true
           \/ exists id, In (Some id) (triggers_ self)
                         /\ IsFinished (deref id) = true)) /\
  (triggers_ self = [] -> IsFinished (deref x) = false ->
   CanBeExecuted deref now (AddTrigger (Some x) self) = Returns false) /\
  (IsFinished (deref x) = true ->
   CanBeExecuted deref now self = Returns true ->
   CanBeExecuted deref now (AddTrigger (Some x) self) = Returns true).
Proof.
  assert (Hiff :
            CanBeExecuted deref now (AddTrigger (Some x) self) = Returns true
            <-> (forall id, In (Some id) (dependencies_ self) ->
                            IsFinished (deref id) = true)
                /\ deadline_ self <= now
                /\ (IsFinished (deref x) = true
                    \/ exists id, In (Some id) (triggers_ self)
                                  /\ IsFinished (deref id) = true)).
  { rewrite CanBeExecuted_ready.
    split.
    - intros [= H]. apply ready_iff in H as (Hd & Ht & Hx).
      split; [exact Hd|]. split; [exact Ht|].
      destruct Hx as [Hnil | (id & Hin & Hfin)].
      + cbn in Hnil. now destruct (triggers_ self).
      + cbn in Hin. apply in_app_or in Hin as [Hin | [[= <-] | []]].
        * right. now exists id.
        * now left.
    - intros (Hd & Ht & Hx). f_equal. apply ready_iff.
      split; [exact Hd|]. split; [exact Ht|]. right.
      destruct Hx as [Hfin | (id & Hin & Hfin)].
      + exists x. split; [|exact Hfin]. cbn. apply in_or_app.
        right. now left.
      + exists id. split; [|exact Hfin]. cbn. apply in_or_app. now left. }
  split; [exact Hiff|]. split.
  - intros Hnil Hx. rewrite CanBeExecuted_ready.
    destruct (Readiness.ready deref now (AddTrigger (Some x) self)) eqn:E;
      [exfalso | reflexivity].
    assert (Hcan : CanBeExecuted deref now (AddTrigger (Some x) self)
                   = Returns true)
      by (now rewrite CanBeExecuted_ready, E).
    apply Hiff in Hcan as (_ & _ & [Hfin | (id & Hin & _)]).
    + congruence.
    + rewrite Hnil in Hin. contradiction.
  - intros Hx Hcan. apply Hiff.
    rewrite CanBeExecuted_ready in Hcan. injection Hcan as Hcan.
    apply ready_iff in Hcan as (Hd & Ht & _).
    split; [exact Hd|]. split; [exact Ht|]. now left.
Qed.

(** X9: readiness only grows.  If a task can be executed, it can still be
    executed at any later time and in any heap in which every task that
    was finished is still finished. *)
Theorem CanBeExecuted_monotone (deref' : TaskId -> Task.t Exn)
        (now now' : time_point) (self : Task.t Exn) :
  now <= now' ->
  (forall id, IsFinished (deref id) = true -> IsFinished (deref' id) = true) ->
  CanBeExecuted deref now self = Returns true ->
  CanBeExecuted deref' now' self = Returns true.
Proof.
  intros Hle Hmono. rewrite !CanBeExecuted_ready.
  intros [= H]. f_equal.
  apply ready_iff in H as (Hd & Ht & Hx). apply ready_iff.
  split; [|split].
  - intros id Hin. apply Hmono. now apply Hd.
  - unfold Readiness.time_ready in *. lia.
  - destruct Hx as [Hnil | (id & Hin & Hfin)]; [now left|].
    right. exists id. split; [exact Hin | now apply Hmono].
Qed.

End TaskFacts.

(** The released example task, later, in a heap where one more future is
    finished. *)
Lemma CanBeExecuted_monotone_witness :
  Task.CanBeExecuted
    (Future.base (Future.upd Examples.mixed 1%nat Examples.completed_future))
    9 Examples.released_by_trigger
  = Returns true.
Proof.
  apply (CanBeExecuted_monotone (Future.base Examples.mixed)
           (Future.base
              (Future.upd Examples.mixed 1%nat Examples.completed_future))
           5 9 Examples.released_by_trigger).
  - lia.
  - intros id. unfold Future.base, Future.upd.
    destruct (Nat.eqb id 1); [reflexivity | exact (fun H => H)].
  - reflexivity.
Defined.

(** * Further properties of the lambdas of the combinators *)

Section LambdaFacts.
Context {T Exn : Type}.
Variable h : Future.Heap T Exn.

Lemma WhenAll_loop_spec (ids : list TaskId) :
  forall acc,
    Future.WhenAll_loop h (map Some ids) acc
    = match find (fun id =>
                    negb (Task.IsCompleted (Future.task (h id))
                          || Task.IsCanceled (Future.task (h id)))) ids with
      | Some id =>
          if Task.IsFailed (Future.task (h id))
          then Future.rethrow_exception (Task.GetError (Future.task (h id)))
          else Blocks
      | None => Returns (acc ++ map (fun id => Future.value_ (h id)) ids)
      end.
Proof.
  induction ids as [|id rest IH]; intros acc; cbn.
  - now rewrite app_nil_r.
  - unfold Future.Get, Task.Wait, Task.IsFailed, Task.IsCompleted,
      Task.IsCanceled, Task.GetError in *.
    destruct (Task.status_ (Future.task (h id))) eqn:Hst; cbn;
      rewrite ?Hst; cbn.
    + reflexivity.
    + rewrite IH. destruct (find _ rest); [reflexivity|].
      now rewrite <- app_assoc.
    + apply bind_rethrow.
    + rewrite IH. destruct (find _ rest); [reflexivity|].
      now rewrite <- app_assoc.
Qed.

(** X10: the lambda of [WhenAll] over live futures.  It goes through the
    vector in order up to the first element that is neither Completed nor
    Canceled: if that element is Failed the lambda rethrows its error, if
    it is Pending the lambda blocks in [Get]; with no such element it
    returns the value slots of all the elements, in the order of the
    vector (a Canceled element contributes its unwritten slot). *)
Theorem WhenAll_first_failure_or_all_values (ids : list TaskId) :
  Future.call h (Future.WhenAllFn (map Some ids))
  = match find (fun id =>
                  negb (Task.IsCompleted (Future.task (h id))
                        || Task.IsCanceled (Future.task (h id)))) ids with
    | Some id =>
        if Task.IsFailed (Future.task (h id))
        then Future.rethrow_exception (Task.GetError (Future.task (h id)))
        else Blocks
    | None =>
        Returns (Future.Vector (map (fun id => Future.value_ (h id)) ids))
    end.
Proof.
  cbn [Future.call]. rewrite WhenAll_loop_spec.
  destruct (find _ ids) as [id|]; [|reflexivity].
  destruct (Task.IsFailed (Future.task (h id)));
    [apply bind_rethrow | reflexivity].
Qed.

Lemma WhenFirst_loop_spec (ids : list TaskId) :
  Future.WhenFirst_loop h (map Some ids)
  = match find (fun id => Task.IsFinished (Future.task (h id))) ids with
    | Some id =>
        if Task.IsFailed (Future.task (h id))
        then Future.rethrow_exception (Task.GetError (Future.task (h id)))
        else Returns (Future.value_ (h id))
    | None => Undefined
    end.
Proof.
  induction ids as [|id rest IH]; cbn; [reflexivity|].
  unfold Future.Get, Task.Wait, Task.IsFailed, Task.IsFinished,
    Task.GetError in *.
  destruct (Task.status_ (Future.task (h id))) eqn:Hst; cbn;
    rewrite ?Hst; cbn;
    [exact IH | reflexivity | reflexivity | reflexivity].
Qed.

(** X11: the lambda of [WhenFirst] over live futures returns what [Get]
    gives on the first element of the vector, in the order of the vector,
    that is finished: its value slot, or its error rethrown if it is
    Failed.  It never blocks.  When no element is finished, and so also on
    the empty vector, control flows off the end of the lambda, which is
    undefined. *)
Theorem WhenFirst_first_finished (ids : list TaskId) :
  Future.call h (Future.WhenFirstFn (map Some ids))
  = match find (fun id => Task.IsFinished (Future.task (h id))) ids with
    | Some id =>
        if Task.IsFailed (Future.task (h id))
        then Future.rethrow_exception (Task.GetError (Future.task (h id)))
        else Returns (Future.value_ (h id))
    | None => Undefined
    end.
Proof. cbn [Future.call]. apply WhenFirst_loop_spec. Qed.

End LambdaFacts.

(** The two lambdas on the example heap. *)
Example lambdas_on_mixed :
  Future.call Examples.mixed (Future.WhenAllFn [Some 0; Some 2]%nat)
  = Returns (Future.Vector [Future.Scalar 42; Future.Default]) /\
  Future.call Examples.mixed (Future.WhenAllFn [Some 0; Some 3; Some 1]%nat)
  = Throws 7%nat /\
  Future.call Examples.mixed (Future.WhenAllFn [Some 0; Some 1; Some 3]%nat)
  = Blocks /\
  Future.call Examples.mixed (Future.WhenFirstFn [Some 1; Some 2; Some 0]%nat)
  = Returns Future.Default /\
  Future.call Examples.mixed (Future.WhenFirstFn [Some 1]%nat) = Undefined.
Proof. repeat split. Qed.

(** * Further properties of the executor *)

Section WorkerFacts.
Context {T Exn : Type}.
Import Executor.

(** The state the [try] block leaves behind. *)
Lemma RunTask_try_state (task : TaskId) (s : State T Exn) :
  exists h',
    state_of (RunTask_try task s)
    = {| heap := h'; fresh := fresh s; task_queue_ := task_queue_ s;
         runs := task :: runs s |} /\
    (forall j, j <> task -> h' j = heap s j) /\
    (Task.IsFinished (Future.task (heap s task)) = true ->
     Task.IsFinished (Future.task (h' task)) = true) /\
    (Shapes.errors_recorded (heap s) -> Shapes.errors_recorded h').
Proof.
  unfold RunTask_try, enter_Run, update, set_heap. cbn.
  destruct (Future.Run (heap s) (heap s task)) as [f|e| |]; cbn.
  - eexists. split; [reflexivity|]. split; [|split].
    + intros j Hne. now apply upd_other.
    + intros _. now rewrite upd_same.
    + intros Hrec id. destruct (Nat.eq_dec id task) as [->|Hne].
      * rewrite upd_same. discriminate.
      * rewrite upd_other by exact Hne. apply Hrec.
  - eexists. split; [reflexivity|]. split; [|split].
    + intros j Hne. now apply upd_other.
    + intros _. now rewrite upd_same.
    + intros Hrec id. destruct (Nat.eq_dec id task) as [->|Hne].
      * rewrite upd_same. discriminate.
      * rewrite upd_other by exact Hne. apply Hrec.
  - exists (heap s). repeat split; auto.
  - exists (heap s). repeat split; auto.
Qed.

(** What a pass does, by the front of the buffer and the two tests. *)
Lemma RunTask_iteration_cases (now : time_point) (s : State T Exn) :
  let q := task_queue_ s in
  (UnboundedBlockingQueue.buffer_ q = [] /\
   RunTask_iteration now s
   = if UnboundedBlockingQueue.stopped_ q then Exit s else Idle s) \/
  (exists rest,
     UnboundedBlockingQueue.buffer_ q = None :: rest /\
     RunTask_iteration now s
     = Exit (set_queue
               {| UnboundedBlockingQueue.stopped_ :=
                    UnboundedBlockingQueue.stopped_ q;
                  UnboundedBlockingQueue.buffer_ := rest |} s)) \/
  (exists task rest,
     UnboundedBlockingQueue.buffer_ q = Some task :: rest /\
     let taken :=
       set_queue {| UnboundedBlockingQueue.stopped_ :=
                      UnboundedBlockingQueue.stopped_ q;
                    UnboundedBlockingQueue.buffer_ := rest |} s in
     (Task.CanBeExecuted (Future.base (heap s)) now (the_task s task)
      = Returns false /\
      RunTask_iteration now s
      = Continue
          (set_queue
             {| UnboundedBlockingQueue.stopped_ :=
                  UnboundedBlockingQueue.stopped_ q;
                UnboundedBlockingQueue.buffer_ :=
                  if UnboundedBlockingQueue.stopped_ q
                  then rest else rest ++ [Some task] |} s)) \/
     (Task.CanBeExecuted (Future.base (heap s)) now (the_task s task)
      = Returns true /\
      Task.IsCanceled (the_task s task) = true /\
      RunTask_iteration now s = Continue taken) \/
     (Task.CanBeExecuted (Future.base (heap s)) now (the_task s task)
      = Returns true /\
      Task.IsCanceled (the_task s task) = false /\
      RunTask_iteration now s = RunTask_try task taken)).
Proof.
  cbv zeta.
  destruct (UnboundedBlockingQueue.buffer_ (task_queue_ s))
    as [|[task|] rest] eqn:Hbuf.
  - left. split; [reflexivity|].
    unfold RunTask_iteration, RunTask_select, UnboundedBlockingQueue.Take.
    rewrite Hbuf. cbn. rewrite orb_false_r.
    destruct (UnboundedBlockingQueue.stopped_ (task_queue_ s)) eqn:Hs; cbn.
    + unfold set_queue. destruct s as [hp fr [st bf] rn]; cbn in *.
      now subst.
    + reflexivity.
  - right. right. exists task, rest. split; [reflexivity|].
    unfold RunTask_iteration, RunTask_select.
    rewrite (Take_front _ _ _ Hbuf). cbn zeta.
    unfold the_task, set_queue. cbn [heap].
    rewrite CanBeExecuted_ready.
    destruct (Readiness.ready (Future.base (heap s)) now
                (Future.task (heap s task))).
    + destruct (Task.IsCanceled (Future.task (heap s task))).
      * right. left. repeat split; reflexivity.
      * right. right. repeat split; reflexivity.
    + left. split; [reflexivity|].
      unfold UnboundedBlockingQueue.Put. cbn.
      now destruct (UnboundedBlockingQueue.stopped_ (task_queue_ s)).
  - right. left. exists rest. split; [reflexivity|].
    unfold RunTask_iteration, RunTask_select.
    now rewrite (Take_front _ _ _ Hbuf).
Qed.

Lemma RunTask_iteration_keeps_finished (now : time_point)
      (s s' : State T Exn) (task : TaskId) :
  state_of (RunTask_iteration now s) = s' ->
  Task.IsFinished (the_task s task) = true ->
  Task.IsFinished (the_task s' task) = true.
Proof.
  intros <- Hfin.
  destruct (RunTask_iteration_cases now s)
    as [[_ E] | [(rest & _ & E) | (j & rest & _ & [[_ E] | [(_ & _ & E)
                                                          | (_ & _ & E)]])]];
    rewrite E; clear E.
  - now destruct (UnboundedBlockingQueue.stopped_ (task_queue_ s)).
  - exact Hfin.
  - exact Hfin.
  - exact Hfin.
  - match goal with
    | |- context [RunTask_try j ?taken] =>
        destruct (RunTask_try_state j taken) as (h' & E & Hframe & Hkeep & _)
    end.
    rewrite E. unfold the_task in *. cbn in *.
    destruct (Nat.eq_dec task j) as [->|Hne].
    + now apply Hkeep.
    + now rewrite Hframe.
Qed.

(** X15: a finished task stays finished.  Whatever the worker loop does,
    and whatever [Submit] or [Cancel] is called on whichever task, a task
    for which [IsFinished] is true keeps [IsFinished] true (the terminal
    status itself may still be overwritten by another terminal status). *)
Theorem finished_stays_finished (clock : list time_point)
        (s : State T Exn) (task other : TaskId) :
  Task.IsFinished (the_task s task) = true ->
  Task.IsFinished (the_task (state_of (RunTask clock s)) task) = true /\
  Task.IsFinished (the_task (Submit other s) task) = true /\
  Task.IsFinished (the_task (update other Task.Cancel s) task) = true.
Proof.
  intros Hfin.
  assert (Hcancel : Task.IsFinished
                      (the_task (update other Task.Cancel s) task) = true).
  { unfold the_task, update; cbn.
    destruct (Nat.eq_dec task other) as [->|Hne].
    - rewrite upd_same. cbn. apply Cancel_finishes.
    - now rewrite upd_other. }
  split; [|split; [|exact Hcancel]].
  - revert Hfin.
    apply (RunTask_invariant
             (fun s s' =>
                Task.IsFinished (the_task s task) = true ->
                Task.IsFinished (the_task s' task) = true)
             (fun s H => H)
             (fun s1 s2 s3 H12 H23 H => H23 (H12 H))
             (fun now s s' => RunTask_iteration_keeps_finished now s s' task)
             clock s _ eq_refl).
  - unfold Submit.
    destruct (UnboundedBlockingQueue.IsClosed (task_queue_ s));
      [exact Hcancel|].
    now destruct (negb (Task.IsCanceled (the_task s other))).
Qed.

Lemma RunTask_try_kind (task : TaskId) (s : State T Exn) :
  match RunTask_try task s with
  | Exit _ | Idle _ => False
  | Continue _ | Stuck _ | Crash _ => True
  end.
Proof.
  unfold RunTask_try.
  now destruct (Future.Run (heap (enter_Run task s))
                           (heap (enter_Run task s) task)).
Qed.

Lemma closed_pass_shortens (now : time_point) (s : State T Exn) :
  UnboundedBlockingQueue.stopped_ (task_queue_ s) = true ->
  match RunTask_iteration now s with
  | Continue s1 =>
      UnboundedBlockingQueue.stopped_ (task_queue_ s1) = true /\
      length (UnboundedBlockingQueue.buffer_ (task_queue_ s))
      = S (length (UnboundedBlockingQueue.buffer_ (task_queue_ s1)))
  | Idle _ => False
  | Exit _ | Stuck _ | Crash _ => True
  end.
Proof.
  intros Hs.
  destruct (RunTask_iteration_cases now s)
    as [[_ E] | [(rest & _ & E) | (j & rest & Hb & [[_ E] | [(_ & _ & E)
                                                           | (_ & _ & E)]])]];
    rewrite E; clear E; rewrite ?Hs; cbn; rewrite ?Hb; cbn; auto.
  match goal with
  | |- context [RunTask_try j ?taken] =>
      destruct (RunTask_try_state j taken) as (h' & E & _);
      pose proof (RunTask_try_kind j taken) as Hkind;
      destruct (RunTask_try j taken); cbn in E; subst; cbn; auto
  end.
Qed.

Lemma closed_loop_stops (clock : list time_point) :
  forall s : State T Exn,
    UnboundedBlockingQueue.stopped_ (task_queue_ s) = true ->
    (length (UnboundedBlockingQueue.buffer_ (task_queue_ s))
     < length clock)%nat ->
    exists s', RunTask clock s = Exit s' \/ RunTask clock s = Stuck s'
               \/ RunTask clock s = Crash s'.
Proof.
  induction clock as [|now later IH]; intros s Hs Hlen; cbn in Hlen; [lia|].
  pose proof (closed_pass_shortens now s Hs) as Hpass.
  cbn. destruct (RunTask_iteration now s) as [s1|s1|s1|s1|s1].
  - destruct Hpass as [Hs1 Hl]. apply IH; [exact Hs1 | lia].
  - exists s1. now left.
  - contradiction.
  - exists s1. right. now left.
  - exists s1. right. now right.
Qed.

(** X16: [StartShutdown] closes the channel for good and the worker then
    comes to an end.  The call is idempotent and keeps the buffered
    handles; on the closed channel every pass removes one handle, a handle
    whose task is not ready being dropped and not put back, so a worker
    never waits in [Take]: given more passes than there are handles it has
    returned, unless a [Run] blocked or was undefined on the way. *)
Theorem StartShutdown_drains (clock : list time_point) (s : State T Exn) :
  StartShutdown (StartShutdown s) = StartShutdown s /\
  UnboundedBlockingQueue.IsClosed (task_queue_ (StartShutdown s)) = true /\
  UnboundedBlockingQueue.buffer_ (task_queue_ (StartShutdown s))
  = UnboundedBlockingQueue.buffer_ (task_queue_ s) /\
  heap (StartShutdown s) = heap s /\
  ((length (UnboundedBlockingQueue.buffer_ (task_queue_ s))
    < length clock)%nat ->
   exists s',
     RunTask clock (StartShutdown s) = Exit s' \/
     RunTask clock (StartShutdown s) = Stuck s' \/
     RunTask clock (StartShutdown s) = Crash s').
Proof.
  repeat (split; [reflexivity|]).
  intros Hlen. apply closed_loop_stops; [reflexivity | exact Hlen].
Qed.

(** X17: a pass enters [Run] only on the task at the front of the buffer,
    and only when that task is not Canceled, each of its dependencies is
    finished, its time trigger is not ahead of the clock, and it has no
    trigger or one that is finished.  In every other case the run log is
    left as it is. *)
Theorem Run_entered_only_when_ready (now : time_point) (s : State T Exn) :
  runs (state_of (RunTask_iteration now s)) = runs s \/
  exists task rest,
    runs (state_of (RunTask_iteration now s)) = task :: runs s /\
    UnboundedBlockingQueue.buffer_ (task_queue_ s) = Some task :: rest /\
    Task.IsCanceled (the_task s task) = false /\
    (forall d, In (Some d) (Task.dependencies_ (the_task s task)) ->
               Task.IsFinished (the_task s d) = true) /\
    Task.deadline_ (the_task s task) <= now /\
    (Task.triggers_ (the_task s task) = [] \/
     exists x, In (Some x) (Task.triggers_ (the_task s task)) /\
               Task.IsFinished (the_task s x) = true).
Proof.
  destruct (RunTask_iteration_cases now s)
    as [[_ E] | [(rest & _ & E) | (j & rest & Hb & [[_ E] | [(_ & _ & E)
                                                           | (Hcan & Hc & E)]])]];
    rewrite E; clear E.
  - left. now destruct (UnboundedBlockingQueue.stopped_ (task_queue_ s)).
  - now left.
  - now left.
  - now left.
  - right. exists j, rest.
    match goal with
    | |- context [RunTask_try j ?taken] =>
        destruct (RunTask_try_state j taken) as (h' & E & _)
    end.
    rewrite E. cbn. split; [reflexivity|]. split; [exact Hb|].
    split; [exact Hc|].
    rewrite CanBeExecuted_ready in Hcan. injection Hcan as Hcan.
    apply ready_iff in Hcan as (Hd & Ht & Hx).
    split; [exact Hd|]. split; [exact Ht | exact Hx].
Qed.

(** X18: the [try] block records how [Run] ended.  When [Run] returns, the
    task is Completed and [Get] on it returns the value slot [Run] left;
    when [Run] throws, the task is Failed, [GetError] gives the exception
    thrown, [Get] rethrows it and the value slot is as before; when [Run]
    blocks, nothing but the run log has changed.  No other object of the
    heap is touched in any case. *)
Theorem RunTask_try_records_outcome (task : TaskId) (s : State T Exn) :
  match Future.Run (heap s) (heap s task) with
  | Returns f =>
      exists s', RunTask_try task s = Continue s' /\
        Task.IsCompleted (the_task s' task) = true /\
        Future.Get (heap s' task) = Returns (Future.value_ f)
  | Throws e =>
      exists s', RunTask_try task s = Continue s' /\
        Task.IsFailed (the_task s' task) = true /\
        Task.GetError (the_task s' task) = Some e /\
        Future.Get (heap s' task) = Throws e /\
        Future.value_ (heap s' task) = Future.value_ (heap s task)
  | Blocks =>
      exists s', RunTask_try task s = Stuck s' /\ heap s' = heap s
  | Undefined =>
      exists s', RunTask_try task s = Crash s' /\ heap s' = heap s
  end /\
  (forall j, j <> task ->
             heap (state_of (RunTask_try task s)) j = heap s j) /\
  runs (state_of (RunTask_try task s)) = task :: runs s.
Proof.
  split.
  - unfold RunTask_try, enter_Run, update, set_heap, the_task. cbn.
    destruct (Future.Run (heap s) (heap s task)) as [f|e| |]; cbn;
      eexists; (split; [reflexivity|]); cbn; rewrite ?upd_same;
      repeat split; reflexivity.
  - destruct (RunTask_try_state task s) as (h' & E & Hframe & _).
    rewrite E. cbn. split; [exact Hframe | reflexivity].
Qed.

Lemma RunTask_iteration_keeps_errors (now : time_point)
      (s s' : State T Exn) :
  state_of (RunTask_iteration now s) = s' ->
  Shapes.errors_recorded (heap s) -> Shapes.errors_recorded (heap s').
Proof.
  intros <- Hrec.
  destruct (RunTask_iteration_cases now s)
    as [[_ E] | [(rest & _ & E) | (j & rest & _ & [[_ E] | [(_ & _ & E)
                                                          | (_ & _ & E)]])]];
    rewrite E; clear E.
  - now destruct (UnboundedBlockingQueue.stopped_ (task_queue_ s)).
  - exact Hrec.
  - exact Hrec.
  - exact Hrec.
  - match goal with
    | |- context [RunTask_try j ?taken] =>
        destruct (RunTask_try_state j taken) as (h' & E & _ & _ & Hkeep)
    end.
    rewrite E. cbn. now apply Hkeep.
Qed.

Lemma Get_defined (f : Future.t T Exn) :
  (Task.IsFailed (Future.task f) = true ->
   Task.GetError (Future.task f) <> None) ->
  Future.Get f <> Undefined.
Proof.
  unfold Future.Get, Task.Wait, Task.IsFailed, Task.GetError,
    Future.rethrow_exception.
  destruct (Task.status_ (Future.task f)); cbn; intros H; try discriminate.
  destruct (Task.e_ptr_ (Future.task f)); [discriminate|].
  now specialize (H eq_refl).
Qed.

(** X19: a Failed future always holds the exception that failed it.  If
    every Failed future of the heap holds an error, this is still so after
    any run of the worker loop and after any [Submit], and then [Get] is
    defined on every future: it never rethrows a null exception pointer. *)
Theorem failed_futures_hold_their_error (clock : list time_point)
        (s : State T Exn) (other : TaskId) :
  Shapes.errors_recorded (heap s) ->
  Shapes.errors_recorded (heap (state_of (RunTask clock s))) /\
  Shapes.errors_recorded (heap (Submit other s)) /\
  (forall id, Future.Get (heap (state_of (RunTask clock s)) id)
              <> Undefined).
Proof.
  intros Hrec.
  assert (Hloop : Shapes.errors_recorded (heap (state_of (RunTask clock s)))).
  { revert Hrec.
    apply (RunTask_invariant
             (fun s s' =>
                Shapes.errors_recorded (heap s) ->
                Shapes.errors_recorded (heap s'))
             (fun s H => H)
             (fun s1 s2 s3 H12 H23 H => H23 (H12 H))
             (fun now s s' => RunTask_iteration_keeps_errors now s s')
             clock s _ eq_refl). }
  split; [exact Hloop|]. split.
  - unfold Submit.
    destruct (UnboundedBlockingQueue.IsClosed (task_queue_ s)).
    + unfold update; cbn. intros id.
      destruct (Nat.eq_dec id other) as [->|Hne].
      * rewrite upd_same. cbn [Future.with_task Future.task].
        specialize (Hrec other). unfold Task.Cancel.
        destruct (Task.TaskStatus_eqb
                    (Task.status_ (Future.task (heap s other)))
                    Task.kPending).
        -- intros Hf. discriminate Hf.
        -- exact Hrec.
      * rewrite upd_other by exact Hne. apply Hrec.
    + now destruct (negb (Task.IsCanceled (the_task s other))).
  - intros id. apply Get_defined. apply Hloop.
Qed.

Lemma absent_front (task j : TaskId) (rest : list Handle) :
  length (filter (designates task) (Some j :: rest)) = 0%nat ->
  j <> task /\ length (filter (designates task) rest) = 0%nat.
Proof.
  cbn. destruct (Nat.eqb_spec j task) as [->|Hne]; cbn; [discriminate|].
  now split.
Qed.

Lemma RunTask_iteration_skips_absent (now : time_point)
      (s s' : State T Exn) (task : TaskId) :
  state_of (RunTask_iteration now s) = s' ->
  handles_in_channel task s = 0%nat ->
  heap s' task = heap s task /\
  times_run task s' = times_run task s /\
  handles_in_channel task s' = 0%nat.
Proof.
  intros <- Habs. unfold handles_in_channel in *.
  destruct (RunTask_iteration_cases now s)
    as [[_ E] | [(rest & Hb & E) | (j & rest & Hb & [[_ E] | [(_ & _ & E)
                                                            | (_ & _ & E)]])]];
    rewrite E; clear E.
  - now destruct (UnboundedBlockingQueue.stopped_ (task_queue_ s)).
  - rewrite Hb in Habs. cbn in *. now repeat split.
  - rewrite Hb in Habs. apply absent_front in Habs as [Hne Hrest].
    cbn [state_of set_queue heap runs task_queue_
         UnboundedBlockingQueue.buffer_].
    split; [reflexivity|]. split; [reflexivity|].
    destruct (UnboundedBlockingQueue.stopped_ (task_queue_ s));
      [exact Hrest|].
    rewrite filter_app, length_app. cbn.
    destruct (Nat.eqb_spec j task); [congruence|].
    cbn. rewrite Nat.add_0_r. exact Hrest.
  - rewrite Hb in Habs. apply absent_front in Habs as [Hne Hrest].
    cbn. now repeat split.
  - rewrite Hb in Habs. apply absent_front in Habs as [Hne Hrest].
    match goal with
    | |- context [RunTask_try j ?taken] =>
        destruct (RunTask_try_state j taken) as (h' & E & Hframe & _)
    end.
    rewrite E. unfold times_run. cbn.
    split; [apply Hframe; congruence|].
    split; [|exact Hrest].
    now destruct (Nat.eqb_spec j task).
Qed.

(** X20: the worker loop leaves alone a task that has no handle in the
    channel.  Such a task, for one a future that was constructed and never
    submitted, is never run and its object is never written, however long
    the loop runs, and no handle of it ever appears in the channel. *)
Theorem task_without_handle_is_untouched (clock : list time_point)
        (s : State T Exn) (task : TaskId) :
  handles_in_channel task s = 0%nat ->
  heap (state_of (RunTask clock s)) task = heap s task /\
  times_run task (state_of (RunTask clock s)) = times_run task s /\
  handles_in_channel task (state_of (RunTask clock s)) = 0%nat.
Proof.
  refine (RunTask_invariant
            (fun s s' =>
               handles_in_channel task s = 0%nat ->
               heap s' task = heap s task /\
               times_run task s' = times_run task s /\
               handles_in_channel task s' = 0%nat)
            _ _ _ clock s _ eq_refl).
  - intros s0 H. now repeat split.
  - intros s1 s2 s3 H12 H23 H.
    destruct (H12 H) as (E1 & E2 & E3). destruct (H23 E3) as (F1 & F2 & F3).
    repeat split; congruence.
  - intros now s0 s' E. now apply RunTask_iteration_skips_absent with now.
Qed.

End WorkerFacts.

(** * Further properties of the combinators *)

Section ConstructionFacts.
Context {T Exn : Type}.
Import Executor.

Lemma Submit_frame (task : TaskId) (s : State T Exn) :
  fresh (Submit task s) = fresh s /\
  runs (Submit task s) = runs s /\
  (forall j, j <> task -> heap (Submit task s) j = heap s j).
Proof.
  unfold Submit.
  destruct (UnboundedBlockingQueue.IsClosed (task_queue_ s)).
  - unfold update; cbn. repeat split; try reflexivity.
    intros j Hne. now apply upd_other.
  - destruct (negb (Task.IsCanceled (the_task s task)));
      repeat split; reflexivity.
Qed.

Lemma Submit_after_construction (s s2 : State T Exn) (task : TaskId) :
  task = fresh s ->
  fresh s2 = S (fresh s) ->
  (forall j, j <> task -> heap s2 j = heap s j) ->
  runs s2 = runs s ->
  task_queue_ s2 = task_queue_ s ->
  Task.status_ (the_task s2 task) = Task.kPending ->
  Shapes.constructs s (task, Submit task s2).
Proof.
  intros -> Hfresh Hframe Hruns Hq Hst.
  destruct (Submit_frame (fresh s) s2) as (F1 & F2 & F3).
  exists s2. cbn [snd].
  split; [reflexivity|]. split; [exact Hfresh|]. split; [exact Hframe|].
  split; [exact Hruns|]. split; [exact Hq|]. split; [exact Hst|].
  split; [now rewrite F1|]. split; [|now rewrite F2].
  intros j Hne. rewrite F3 by exact Hne. now apply Hframe.
Qed.

Lemma fold_AddTrigger (task : TaskId) (all : list Handle) :
  forall s : State T Exn,
    let s' := fold_left (fun s elem => update task (Task.AddTrigger elem) s)
                        all s in
    fresh s' = fresh s /\ task_queue_ s' = task_queue_ s /\
    runs s' = runs s /\
    (forall j, j <> task -> heap s' j = heap s j) /\
    Future.fn_ (heap s' task) = Future.fn_ (heap s task) /\
    Task.status_ (the_task s' task) = Task.status_ (the_task s task) /\
    Task.dependencies_ (the_task s' task)
    = Task.dependencies_ (the_task s task) /\
    Task.deadline_ (the_task s' task) = Task.deadline_ (the_task s task) /\
    Task.triggers_ (the_task s' task)
    = Task.triggers_ (the_task s task) ++ all.
Proof.
  induction all as [|elem rest IH]; intros s; cbn.
  - rewrite app_nil_r. repeat split; reflexivity.
  - destruct (IH (update task (Task.AddTrigger elem) s))
      as (H1 & H2 & H3 & H4 & H5 & H6 & H7 & H8 & H9).
    cbv zeta in *. unfold the_task in *.
    rewrite H1, H2, H3, H5, H6, H7, H8, H9.
    unfold update; cbn. rewrite !upd_same. cbn.
    repeat split; try reflexivity.
    + intros j Hne. rewrite H4 by exact Hne. cbn. now apply upd_other.
    + now rewrite <- app_assoc.
Qed.

Lemma Submit_keeps_wiring (task j : TaskId) (s : State T Exn) :
  Task.dependencies_ (the_task (Submit task s) j)
  = Task.dependencies_ (the_task s j) /\
  Task.triggers_ (the_task (Submit task s) j)
  = Task.triggers_ (the_task s j) /\
  Task.deadline_ (the_task (Submit task s) j)
  = Task.deadline_ (the_task s j) /\
  Future.fn_ (heap (Submit task s) j) = Future.fn_ (heap s j).
Proof.
  unfold Submit.
  destruct (UnboundedBlockingQueue.IsClosed (task_queue_ s)).
  - unfold update, the_task; cbn.
    destruct (Nat.eq_dec j task) as [->|Hne].
    + rewrite upd_same. cbn. unfold Task.Cancel.
      destruct (Task.TaskStatus_eqb _ _); repeat split; reflexivity.
    + rewrite upd_other by exact Hne. repeat split; reflexivity.
  - destruct (negb (Task.IsCanceled (the_task s task)));
      repeat split; reflexivity.
Qed.

(** X12: each of the five combinators constructs exactly one future,
    Pending, at the next free address, in a state that differs from the
    one it started from in nothing else, and then calls [Submit] on that
    future; in the state it returns, every other object of the heap and
    the run log are as they were. *)
Theorem combinators_construct (now deadline : time_point)
        (fn : Future.Fn T Exn) (input : Handle) (all : list Handle)
        (s : State T Exn) :
  Shapes.constructs s (Invoke now fn s) /\
  Shapes.constructs s (Then now input fn s) /\
  Shapes.constructs s (WhenAll now all s) /\
  Shapes.constructs s (WhenFirst now all s) /\
  Shapes.constructs s (WhenAllBeforeDeadline now all deadline s).
Proof.
  assert (Hinvoke : forall fn', Shapes.constructs s (Invoke now fn' s)).
  { intros fn'. unfold Invoke, make_shared.
    apply Submit_after_construction; try reflexivity.
    - intros j Hne. cbn. now apply upd_other.
    - unfold the_task; cbn. now rewrite upd_same. }
  split; [apply Hinvoke|]. split; [|split; [apply Hinvoke|split]].
  - unfold Then, make_shared.
    apply Submit_after_construction; try reflexivity.
    + intros j Hne. unfold update; cbn. now rewrite !upd_other.
    + unfold the_task, update; cbn. now rewrite !upd_same.
  - unfold WhenFirst, make_shared.
    match goal with
    | |- context [fold_left ?f all ?s1] =>
        destruct (fold_AddTrigger (fresh s) all s1)
          as (H1 & H2 & H3 & H4 & _ & H6 & _)
    end.
    cbv zeta in *.
    apply Submit_after_construction; try reflexivity.
    + now rewrite H1.
    + intros j Hne. rewrite H4 by exact Hne. cbn. now apply upd_other.
    + now rewrite H3.
    + now rewrite H2.
    + rewrite H6. unfold the_task; cbn. now rewrite upd_same.
  - unfold WhenAllBeforeDeadline, make_shared.
    apply Submit_after_construction; try reflexivity.
    + intros j Hne. unfold update; cbn. now rewrite !upd_other.
    + unfold the_task, update; cbn. now rewrite !upd_same.
Qed.

(** X13: [Then] wires the input as the only dependency.  The future it
    returns holds [fn], has no trigger and no time trigger beyond its
    construction, and can be executed exactly when the clock is not behind
    its construction and the input is finished, with whichever terminal
    status (a Failed or Canceled input releases it as well); a null input
    holds nothing back. *)
Theorem Then_waits_for_input (now : time_point) (input : Handle)
        (fn : Future.Fn T Exn) (s : State T Exn) :
  let task := fst (Then now input fn s) in
  let s' := snd (Then now input fn s) in
  Task.dependencies_ (the_task s' task) = [input] /\
  Task.triggers_ (the_task s' task) = [] /\
  Future.fn_ (heap s' task) = fn /\
  forall (h : TaskId -> Task.t Exn) now',
    Task.CanBeExecuted h now' (the_task s' task)
    = Returns ((now <=? now')
               && match input with
                  | Some i => Task.IsFinished (h i)
                  | None => true
                  end).
Proof.
  cbv zeta. unfold Then, make_shared. cbn [fst snd].
  match goal with
  | |- context [Submit ?t ?s2] =>
      destruct (Submit_keeps_wiring t t s2) as (Hd & Ht & Hdl & Hfn)
  end.
  rewrite Hd, Ht, Hfn.
  unfold the_task, update in *; cbn in *. rewrite !upd_same in *. cbn in *.
  repeat (split; [reflexivity|]).
  intros h now'. rewrite CanBeExecuted_ready. unfold Readiness.ready.
  rewrite Hd, Ht, Hdl. cbn.
  destruct input as [i|]; cbn; rewrite ?andb_true_r;
    [apply f_equal, andb_comm | reflexivity].
Qed.

(** X14: [WhenFirst] wires the elements of the vector as the triggers, in
    order.  The future it returns has no dependency and can be executed
    exactly when the clock is not behind its construction and either the
    vector is empty or one of its non-null elements is finished.  Over a
    non-empty vector of live futures, whenever the future can be executed
    its lambda finds a finished element and returns what [Get] gives on
    it. *)
Theorem WhenFirst_waits_for_one (now : time_point) (all : list Handle)
        (s : State T Exn) :
  let task := fst (WhenFirst now all s) in
  let s' := snd (WhenFirst now all s) in
  Task.triggers_ (the_task s' task) = all /\
  Task.dependencies_ (the_task s' task) = [] /\
  Future.fn_ (heap s' task) = Future.WhenFirstFn all /\
  (forall (h : TaskId -> Task.t Exn) now',
     Task.CanBeExecuted h now' (the_task s' task)
     = Returns ((now <=? now')
                && (existsb (fun p => match p with
                                      | Some i => Task.IsFinished (h i)
                                      | None => false
                                      end) all
                    || is_empty all))) /\
  (forall (hp : Future.Heap T Exn) now' ids,
     all = map Some ids -> ids <> [] ->
     Task.CanBeExecuted (Future.base hp) now' (the_task s' task)
     = Returns true ->
     exists id,
       In id ids /\
       Task.IsFinished (Future.task (hp id)) = true /\
       Future.call hp (Future.WhenFirstFn all) = Future.Get (hp id)).
Proof.
  cbv zeta. unfold WhenFirst, make_shared. cbn [fst snd].
  match goal with
  | |- context [Submit ?t ?s2] =>
      destruct (Submit_keeps_wiring t t s2) as (Hd & Ht & Hdl & Hfn)
  end.
  match type of Hd with
  | context [fold_left ?f all ?s1] =>
      destruct (fold_AddTrigger (fresh s) all s1)
        as (_ & _ & _ & _ & F5 & _ & F7 & F8 & F9)
  end.
  cbv zeta in *.
  rewrite F7 in Hd. rewrite F9 in Ht. rewrite F8 in Hdl. rewrite F5 in Hfn.
  unfold the_task in Hd, Ht, Hdl, Hfn; cbn in Hd, Ht, Hdl, Hfn.
  rewrite !upd_same in *. cbn in Hd, Ht, Hdl, Hfn.
  assert (Hcan : forall (h : TaskId -> Task.t Exn) now',
             Task.CanBeExecuted h now'
               (the_task
                  (Submit (fresh s)
                     (fold_left
                        (fun s0 elem =>
                           update (fresh s) (Task.AddTrigger elem) s0)
                        all
                        {| heap := Future.upd (heap s) (fresh s)
                                     (Future.create now
                                        (Future.WhenFirstFn all));
                           fresh := S (fresh s);
                           task_queue_ := task_queue_ s;
                           runs := runs s |}))
                  (fresh s))
             = Returns ((now <=? now')
                        && (existsb (fun p => match p with
                                              | Some i => Task.IsFinished (h i)
                                              | None => false
                                              end) all
                            || is_empty all))).
  { intros h now'. rewrite CanBeExecuted_ready.
    unfold Readiness.ready, the_task.
    rewrite Hd, Ht, Hdl. reflexivity. }
  split; [exact Ht|]. split; [exact Hd|]. split; [exact Hfn|].
  split; [exact Hcan|].
  intros hp now' ids -> Hne H. rewrite Hcan in H. injection H as H.
  apply andb_true_iff in H as [_ H]. apply orb_true_iff in H as [H | H].
  - apply existsb_exists in H as (p & Hin & Hfin).
    apply in_map_iff in Hin as (id0 & <- & Hin0).
    destruct (find (fun id => Task.IsFinished (Future.task (hp id))) ids)
      as [id|] eqn:Hfind.
    + apply find_some in Hfind as Hsome. destruct Hsome as [Hin Hfinished].
      exists id. split; [exact Hin|]. split; [exact Hfinished|].
      cbn [Future.call]. rewrite WhenFirst_loop_spec, Hfind.
      unfold Future.Get, Task.Wait, Task.IsFinished, Task.IsFailed in *.
      now destruct (Task.status_ (Future.task (hp id))).
    + exfalso. apply (find_none _ _ Hfind) in Hin0.
      unfold Future.base in Hfin. congruence.
  - destruct ids; [congruence | discriminate].
Qed.

End ConstructionFacts.

(** The cancelled, delayed future of the scenario stays finished through
    three passes and a second [Submit]. *)
Lemma finished_stays_finished_witness :
  Task.IsFinished
    (Executor.the_task
       (Executor.state_of
          (Executor.RunTask [1; 2; 3] (snd Scenarios.delayed_canceled)))
       0%nat) = true /\
  Task.IsFinished
    (Executor.the_task
       (Executor.Submit 0%nat (snd Scenarios.delayed_canceled)) 0%nat) = true.
Proof.
  pose proof (finished_stays_finished
                [1; 2; 3] (snd Scenarios.delayed_canceled) 0%nat 0%nat
                eq_refl) as (H1 & H2 & _).
  split; [exact H1 | exact H2].
Defined.

(** The scenario of the throwing future and its aggregate: no future is
    Failed at the start, and both hold the error after two passes. *)
Lemma failed_futures_hold_their_error_witness :
  let s := snd Scenarios.deadline_over_failure in
  Shapes.errors_recorded
    (Executor.heap (Executor.state_of (Executor.RunTask [6; 7] s))) /\
  Future.Get (Executor.heap (Executor.state_of (Executor.RunTask [6; 7] s))
                            1%nat)
  <> Undefined.
Proof.
  cbv zeta.
  assert (H0 : Shapes.errors_recorded
                 (Executor.heap (snd Scenarios.deadline_over_failure))).
  { intros id. destruct id as [|[|id]]; cbn; discriminate. }
  pose proof (failed_futures_hold_their_error
                [6; 7] (snd Scenarios.deadline_over_failure) 0%nat H0)
    as (H1 & _ & H3).
  split; [exact H1 | exact (H3 1%nat)].
Defined.

(** A second future is constructed beside a submitted one and is not
    submitted: the worker runs the first and leaves the second alone. *)
Lemma task_without_handle_is_untouched_witness :
  let s := snd (Executor.make_shared
                  0 (Future.UserFn (inl (Future.Scalar 9)))
                  (snd Scenarios.constructed_and_invoked)) in
  Executor.runs (Executor.state_of (Executor.RunTask [1; 2] s)) = [0%nat] /\
  Executor.heap (Executor.state_of (Executor.RunTask [1; 2] s)) 1%nat
  = Executor.heap s 1%nat /\
  Executor.times_run 1%nat (Executor.state_of (Executor.RunTask [1; 2] s))
  = 0%nat.
Proof.
  cbv zeta. split; [reflexivity|].
  pose proof (task_without_handle_is_untouched
                [1; 2]
                (snd (Executor.make_shared
                        0 (Future.UserFn (inl (Future.Scalar 9)))
                        (snd Scenarios.constructed_and_invoked)))
                1%nat eq_refl) as (H1 & H2 & _).
  split; [exact H1 | exact H2].
Defined.


